(** * Passwordless portal: wizard progression and TAP lifecycle

    A shallow embedding of the three classes of the portal
    ([AuthManager], [PasswordlessManager] in main.js, [TAPManager] in
    tap.js) and the properties of their state handling.

    Conventions of the embedding.
    - A JavaScript object that is used as a record is a Rocq record; the
      [config] argument of [generateTAP], whose fields may be absent, is a
      finite map from property names to JavaScript values.
    - A method that mutates [this] is a function from the object state to
      the new object state; a method that may throw returns a
      [Completion].
    - The browser (localStorage, timers, the DOM elements a method tests
      for) and the remote graph API are explicit arguments or fields of
      the state: what the page can observe of them is what the functions
      below receive.
    - An [async] method is split at its [await]: the part before it
      runs with the call, the part after it runs later.  A continuation
      behind a [setTimeout] runs when that timeout fires; a
      continuation behind an already settled promise runs once the
      calls of the running script are over, before any timeout or
      click, in the order of the calls. *)

From Stdlib Require Import ZArith List Bool Lia.
From stdpp Require Import base option strings list gmap pretty.

Local Open Scope Z_scope.

(* ===================================================================== *)
(** ** JavaScript values, errors and completions *)
(* ===================================================================== *)

Module Js.

(** [new Error(message)] *)
Record JsError := Error { message : string }.

(** The outcome of evaluating a call: a value or a thrown error
    (for a promise: fulfilled or rejected). *)
Inductive Completion (A : Type) :=
| Return (a : A)
| Throw (e : JsError).
Arguments Return {A} a.
Arguments Throw {A} e.

Definition bind {A B} (c : Completion A) (k : A -> Completion B)
  : Completion B :=
  match c with
  | Return a => k a
  | Throw e => Throw e
  end.

(** [let x = await c; k], or [c] followed by [k] inside one [try]. *)
Notation "'let*' x := c 'in' k" := (bind c (fun x => k))
  (at level 10, x name, c at level 100, k at level 200).

(** Primitive values that occur in a TAP configuration object. *)
Inductive JsVal :=
| JUndefined
| JNull
| JBool (b : bool)
| JNum (n : Z)
| JStr (s : string).

(** ToBoolean *)
Definition truthy (v : JsVal) : bool :=
  match v with
  | JUndefined | JNull => false
  | JBool b => b
  | JNum n => negb (n =? 0)
  | JStr s => negb (String.eqb s "")
  end.

(** [a || b] *)
Definition or (a b : JsVal) : JsVal := if truthy a then a else b.

(** [o.k] on a plain object: [undefined] when the property is absent. *)
Definition get (o : gmap string JsVal) (k : string) : JsVal :=
  default JUndefined (o !! k).

(** [s || t] on strings, where [s] may be [undefined]. *)
Definition str_or (s : option string) (t : string) : string :=
  match s with
  | Some m => if String.eqb m "" then t else m
  | None => t
  end.

(** [l.slice(-k)]: the last [k] elements (all of [l] when it is
    shorter). *)
Definition slice_last {A} (k : nat) (l : list A) : list A :=
  skipn (length l - k)%nat l.

(** A fetch [Response] whose body, read with [json()], has type [A]. *)
Record Response (A : Type) := mkResponse {
  ok : bool;
  status : Z;
  statusText : string;
  json : Completion A
}.
Arguments mkResponse {A}.
Arguments ok {A}.
Arguments status {A}.
Arguments statusText {A}.
Arguments json {A}.

(** Dates.  A date-time string is represented by the time value (in
    milliseconds since the epoch) that [new Date(s).getTime()] gives
    for it, [None] standing for a string that [Date] cannot parse
    (time value NaN).  Time values are integers of at most
    8.64e15 in absolute value, a range in which the arithmetic of
    JavaScript numbers is exact. *)
Definition DateString := option Z.

Definition maxTime : Z := 8640000000000000.

(** [new Date(v)] for a number [v] ([None] is NaN): TimeClip. *)
Definition newDate (v : option Z) : option Z :=
  match v with
  | Some t => if (Z.abs t <=? maxTime) then Some t else None
  | None => None
  end.

(** [d.toISOString()]: throws a RangeError on an invalid date; the
    string it returns parses back to the same time value. *)
Definition toISOString (d : option Z) : Completion DateString :=
  match d with
  | Some t => Return (Some t)
  | None => Throw (Error "Invalid time value")
  end.

End Js.

Import Js.

(* ===================================================================== *)
(** ** AuthManager (tap.js) *)
(* ===================================================================== *)

Module Auth.

(** An entry of [/me/authentication/methods]. *)
Record Method := mkMethod {
  odata_type : string;   (* method['@odata.type'] *)
  method_id : string
}.

(** The body of the methods listing; [value] may be missing. *)
Record MethodsBody := mkMethodsBody { value : option (list Method) }.

Record PasswordlessStatus := mkStatus {
  hasPasswordless : bool;
  methods : list Method;
  allMethods : list Method;
  error : option string
}.

Definition fido2 : string :=
  "#microsoft.graph.fido2AuthenticationMethod".
Definition windowsHello : string :=
  "#microsoft.graph.windowsHelloForBusinessAuthenticationMethod".
Definition authenticatorApp : string :=
  "#microsoft.graph.microsoftAuthenticatorAuthenticationMethod".

(** The predicate of the [filter] in [checkPasswordlessStatus]. *)
Definition isPasswordless (m : Method) : bool :=
  String.eqb (odata_type m) fido2
  || String.eqb (odata_type m) windowsHello
  || String.eqb (odata_type m) authenticatorApp.

(** What the page meets when it queries the graph: the outcome of
    [getAccessToken] and, for a token, the outcome of the [fetch]. *)
Record Remote (A : Type) := mkRemote {
  getAccessToken : Completion string;
  fetch : string -> Completion (Response A)
}.
Arguments mkRemote {A}.
Arguments getAccessToken {A}.
Arguments fetch {A}.

(** The [try] block of [checkPasswordlessStatus]. *)
Definition checkPasswordlessStatus_try (r : Remote MethodsBody)
  : Completion PasswordlessStatus :=
  let* token := getAccessToken r in
  let* response := fetch r token in
  if negb (ok response)
  then Throw (Error ("Error Graph API: " +:+ pretty (status response)))
  else
    let* methods := json response in
    match value methods with
    | None =>
        Throw (Error "Cannot read properties of undefined (reading 'filter')")
    | Some l =>
        let passwordlessMethods := List.filter isPasswordless l in
        Return {| hasPasswordless := (0 <? length passwordlessMethods)%nat;
                  methods := passwordlessMethods;
                  allMethods := l;
                  error := None |}
    end.

Definition checkPasswordlessStatus (r : Remote MethodsBody)
  : PasswordlessStatus :=
  match checkPasswordlessStatus_try r with
  | Return s => s
  | Throw e =>
      {| hasPasswordless := false;
         methods := [];
         allMethods := [];
         error := Some (message e) |}
  end.

End Auth.

(* ===================================================================== *)
(** ** PasswordlessManager (main.js) *)
(* ===================================================================== *)

Module Wizard.

Record WizardProgress := mkProgress {
  step1 : bool;
  step2 : bool;
  step3 : bool;
  passwordlessEnabled : bool;
  methods : list Auth.Method
}.

(** The continuations that the step handlers leave with [setTimeout]:
    the three simulated latencies and the delayed jump of
    [validateSetup] to the completion screen. *)
Inductive task :=
| VerifyDelay
| SetupDelay
| ValidateDelay
| CompletionDelay.

Definition task_eqb (a b : task) : bool :=
  match a, b with
  | VerifyDelay, VerifyDelay
  | SetupDelay, SetupDelay
  | ValidateDelay, ValidateDelay
  | CompletionDelay, CompletionDelay => true
  | _, _ => false
  end.

(** The manager object together with the part of the browser it
    reads and writes: the ['passwordlessProgress'] entry of
    localStorage and the timeouts of the page that have not fired. *)
Record Manager := mkManager {
  currentStep : Z;
  userProgress : WizardProgress;
  storage : option WizardProgress;
  timers : list task
}.

Definition totalSteps : Z := 3.

Definition setStep (n : Z) (m : Manager) : Manager :=
  {| currentStep := n; userProgress := userProgress m;
     storage := storage m; timers := timers m |}.

Definition setProgress (p : WizardProgress) (m : Manager) : Manager :=
  {| currentStep := currentStep m; userProgress := p;
     storage := storage m; timers := timers m |}.

Definition setTimers (ts : list task) (m : Manager) : Manager :=
  {| currentStep := currentStep m; userProgress := userProgress m;
     storage := storage m; timers := ts |}.

(** [setTimeout(k, delay)] *)
Definition setTimeout (t : task) (m : Manager) : Manager :=
  setTimers (timers m ++ [t]) m.

Definition getDefaultProgress : WizardProgress :=
  {| step1 := false; step2 := false; step3 := false;
     passwordlessEnabled := false; methods := [] |}.

(** [loadProgress]: [readable] is false when reading localStorage
    throws.  The entry only ever holds what [saveProgress] wrote, so
    [JSON.parse] gives that record back. *)
Definition loadProgress (readable : bool) (saved : option WizardProgress)
  : WizardProgress :=
  if readable then
    match saved with
    | Some p => p
    | None => getDefaultProgress
    end
  else getDefaultProgress.

(** [saveProgress]: [writable] is false when [setItem] throws (the
    error is logged and dropped). *)
Definition saveProgress (writable : bool) (m : Manager) : Manager :=
  if writable then
    {| currentStep := currentStep m; userProgress := userProgress m;
       storage := Some (userProgress m); timers := timers m |}
  else m.

(** [new PasswordlessManager()] on a page whose localStorage entry is
    [saved]. *)
Definition constructor (readable : bool) (saved : option WizardProgress)
  : Manager :=
  {| currentStep := 1;
     userProgress := loadProgress readable saved;
     storage := saved;
     timers := [] |}.

Definition loadUserProgress (readable : bool)
    (passwordlessStatus : Completion Auth.PasswordlessStatus)
    (m : Manager) : Manager :=
  match passwordlessStatus with
  | Return s =>
      if Auth.hasPasswordless s then
        setProgress
          {| step1 := true; step2 := true; step3 := true;
             passwordlessEnabled := true;
             methods := Auth.methods s |}
          (setStep 4 m)
      else setProgress (loadProgress readable (storage m)) m
  | Throw _ => setProgress getDefaultProgress m
  end.

Definition initializeApp (readable isAuthenticated : bool)
    (passwordlessStatus : Completion Auth.PasswordlessStatus)
    (m : Manager) : Manager :=
  if isAuthenticated
  then loadUserProgress readable passwordlessStatus m
  else m.

Definition validateCurrentStep (m : Manager) : bool :=
  match currentStep m with
  | 1 => step1 (userProgress m)
  | 2 => step2 (userProgress m)
  | 3 => step3 (userProgress m)
  | _ => true
  end.

(** [nextStep], up to its [await]: the guard on the cursor and the
    flag that [validateCurrentStep] reads; [None] when the guard fails
    and the call is over. *)
Definition nextStep_start (m : Manager) : option bool :=
  if currentStep m <? totalSteps then Some (validateCurrentStep m)
  else None.

(** [nextStep], after its [await]: [isValid] is the flag as it was
    read before; the cursor is the one of now. *)
Definition nextStep_resume (isValid writable : bool) (m : Manager)
  : Manager :=
  if negb isValid then m
  else saveProgress writable (setStep (currentStep m + 1) m).

(** A call of [nextStep] that is alone in its script (a click on the
    button): its continuation runs before anything else does. *)
Definition nextStep (writable : bool) (m : Manager) : Manager :=
  match nextStep_start m with
  | Some isValid => nextStep_resume isValid writable m
  | None => m
  end.

Definition prevStep (m : Manager) : Manager :=
  if 1 <? currentStep m then setStep (currentStep m - 1) m else m.

(** How the body of a handler's [try] ends once its delay is over:
    normally, or by an exception raised before or after the progress
    record is updated and saved (both are caught and reported). *)
Inductive outcome :=
| Completes
| ThrowsBeforeUpdate
| ThrowsAfterUpdate.

(** [verifyRequirements], up to the awaited timeout: [throws] when
    the DOM updates before it raise. *)
Definition verifyRequirements_start (throws : bool) (m : Manager)
  : Manager :=
  if throws then m else setTimeout VerifyDelay m.

(** [verifyRequirements], after the timeout. *)
Definition verifyRequirements_resume (o : outcome) (writable : bool)
    (m : Manager) : Manager :=
  match o with
  | ThrowsBeforeUpdate => m
  | _ =>
      let p := userProgress m in
      saveProgress writable
        (setProgress
           {| step1 := true; step2 := step2 p; step3 := step3 p;
              passwordlessEnabled := passwordlessEnabled p;
              methods := methods p |} m)
  end.

Definition setupAuthenticationMethods_start (throws : bool) (m : Manager)
  : Manager :=
  if throws then m else setTimeout SetupDelay m.

Definition setupAuthenticationMethods_resume (o : outcome)
    (writable : bool) (m : Manager) : Manager :=
  match o with
  | ThrowsBeforeUpdate => m
  | _ =>
      let p := userProgress m in
      saveProgress writable
        (setProgress
           {| step1 := step1 p; step2 := true; step3 := step3 p;
              passwordlessEnabled := passwordlessEnabled p;
              methods := methods p |} m)
  end.

Definition validateSetup_start (throws : bool) (m : Manager) : Manager :=
  if throws then m else setTimeout ValidateDelay m.

(** [validateSetup], after the timeout: the flags are set and saved,
    then the jump to the completion screen is scheduled. *)
Definition validateSetup_resume (o : outcome) (writable : bool)
    (m : Manager) : Manager :=
  match o with
  | ThrowsBeforeUpdate => m
  | _ =>
      let p := userProgress m in
      let m' :=
        saveProgress writable
          (setProgress
             {| step1 := step1 p; step2 := step2 p; step3 := true;
                passwordlessEnabled := true;
                methods := methods p |} m) in
      match o with
      | Completes => setTimeout CompletionDelay m'
      | _ => m'
      end
  end.

(** The callback that [validateSetup] schedules. *)
Definition completion (m : Manager) : Manager :=
  setStep (totalSteps + 1) m.

(** Taking a due timeout off the page's list. *)
Fixpoint take (t : task) (l : list task) : option (list task) :=
  match l with
  | [] => None
  | x :: r =>
      if task_eqb x t then Some r
      else option_map (cons x) (take t r)
  end.

(** A call of a method of the manager, as a script of the page may
    make several in a row (the manager is a global of the window). *)
Inductive call :=
| CallNext (writable : bool)
| CallPrev
| CallComplete
| CallVerify (throws : bool)
| CallSetup (throws : bool)
| CallValidate (throws : bool).

(** What a call does before it returns to the script.  [nextStep]
    changes nothing before its [await]. *)
Definition callSync (c : call) (m : Manager) : Manager :=
  match c with
  | CallNext _ => m
  | CallPrev => prevStep m
  | CallComplete => m
  | CallVerify throws => verifyRequirements_start throws m
  | CallSetup throws => setupAuthenticationMethods_start throws m
  | CallValidate throws => validateSetup_start throws m
  end.

(** The continuations that a call leaves for the end of the script:
    for [nextStep], the flag it has read and whether its save will
    succeed. *)
Definition callAwait (c : call) (m : Manager) : list (bool * bool) :=
  match c with
  | CallNext writable =>
      match nextStep_start m with
      | Some isValid => [(isValid, writable)]
      | None => []
      end
  | _ => []
  end.

(** The calls of a script in turn, with the continuations they leave.
    [this.completeSetup] is not defined: calling it throws a
    TypeError, which ends the script. *)
Fixpoint runCalls (calls : list call) (m : Manager)
  : Manager * list (bool * bool) :=
  match calls with
  | [] => (m, [])
  | CallComplete :: _ => (m, [])
  | c :: rest =>
      (fst (runCalls rest (callSync c m)),
       callAwait c m ++ snd (runCalls rest (callSync c m)))
  end.

(** The continuations run in the order in which they were left. *)
Definition drain (queue : list (bool * bool)) (m : Manager) : Manager :=
  fold_left (fun m k => nextStep_resume (fst k) (snd k) m) queue m.

Definition script (calls : list call) (m : Manager) : Manager :=
  drain (snd (runCalls calls m)) (fst (runCalls calls m)).

(** What can happen to the page: a load, a click (one call in a script
    of its own), a timeout, or a script that makes several calls. *)
Inductive event :=
| Reload (readable isAuthenticated : bool)
         (passwordlessStatus : Completion Auth.PasswordlessStatus)
| ClickNext (writable : bool)
| ClickPrev
| ClickComplete
| ClickVerify (throws : bool)
| ClickSetup (throws : bool)
| ClickValidate (throws : bool)
| Fires (t : task) (o : outcome) (writable : bool)
| Script (calls : list call).

Definition runTask (t : task) (o : outcome) (writable : bool)
    (m : Manager) : Manager :=
  match t with
  | VerifyDelay => verifyRequirements_resume o writable m
  | SetupDelay => setupAuthenticationMethods_resume o writable m
  | ValidateDelay => validateSetup_resume o writable m
  | CompletionDelay => completion m
  end.

Definition step (m : Manager) (ev : event) : Manager :=
  match ev with
  | Reload readable isAuthenticated st =>
      initializeApp readable isAuthenticated st
        (constructor readable (storage m))
  | ClickNext writable => nextStep writable m
  | ClickPrev => prevStep m
  | ClickComplete => m  (* [this.completeSetup] is not defined: the
                           listener throws a TypeError *)
  | ClickVerify throws => verifyRequirements_start throws m
  | ClickSetup throws => setupAuthenticationMethods_start throws m
  | ClickValidate throws => validateSetup_start throws m
  | Fires t o writable =>
      match take t (timers m) with
      | Some ts => runTask t o writable (setTimers ts m)
      | None => m
      end
  | Script calls => script calls m
  end.

Definition run (m : Manager) (evs : list event) : Manager :=
  fold_left step evs m.

(** The first visit: a fresh manager over an empty localStorage. *)
Definition boot : Manager := constructor true None.

(** A condition [G] on every call of a script, each taken in the
    state in which the script makes it. *)
Fixpoint guarded (G : Manager -> call -> bool) (m : Manager)
    (calls : list call) : bool :=
  match calls with
  | [] => true
  | CallComplete :: _ => true
  | c :: rest => G m c && guarded G (callSync c m) rest
  end.

Definition validateOnStep3 (m : Manager) (c : call) : bool :=
  match c with
  | CallValidate _ => currentStep m =? totalSteps
  | _ => true
  end.

(** The validation button belongs to the screen of step 3: a run is
    [on_screen] when [validateSetup] is only started from there. *)
Definition shown (m : Manager) (ev : event) : bool :=
  match ev with
  | ClickValidate _ => currentStep m =? totalSteps
  | Script calls => guarded validateOnStep3 m calls
  | _ => true
  end.

(** The calls of [nextStep] in a script. *)
Definition nexts (calls : list call) : nat :=
  length (List.filter (fun c => match c with CallNext _ => true | _ => false end)
                      calls).

(** No script makes a second call of [nextStep] while the first is
    waiting to continue: no two calls of [nextStep] overlap. *)
Definition serial (ev : event) : bool :=
  match ev with
  | Script calls => (nexts calls <=? 1)%nat
  | _ => true
  end.

(** [m2] is [m1] some calls later in the same script: the cursor may
    have gone back, the progress record is the same. *)
Definition later (m1 m2 : Manager) : Prop :=
  currentStep m2 <= currentStep m1 /\
  userProgress m2 = userProgress m1.

Fixpoint on_screen (m : Manager) (evs : list event) : bool :=
  match evs with
  | [] => true
  | ev :: rest => shown m ev && on_screen (step m ev) rest
  end.

(** The two ways onto the completion screen: the success path of
    [validateSetup] (its pending continuation runs to the end and
    schedules the jump) and the short cut of [loadUserProgress]. *)
Definition completes (m : Manager) (ev : event) : bool :=
  match ev with
  | Reload _ true (Return s) => Auth.hasPasswordless s
  | Fires ValidateDelay Completes _ =>
      match take ValidateDelay (timers m) with
      | Some _ => true
      | None => false
      end
  | _ => false
  end.

Fixpoint completed (m : Manager) (evs : list event) : bool :=
  match evs with
  | [] => false
  | ev :: rest => completes m ev || completed (step m ev) rest
  end.





(** No jump to the completion screen is pending and the cursor is on
    a step. *)
Definition stepping (m : Manager) : Prop :=
  currentStep m <= totalSteps /\ ~ In CompletionDelay (timers m).

End Wizard.

(* ===================================================================== *)
(** ** TAPManager (tap.js) *)
(* ===================================================================== *)

Module Tap.

(** The [tapData] object built by [generateTAP]. *)
Record TAP := mkTAP {
  id : string;
  temporaryAccessPass : string;
  createdDateTime : DateString;
  lifetimeInMinutes : Z;
  isUsableOnce : bool;
  expiresDateTime : DateString;
  createdBy : string
}.

(** The pass record the graph answers a successful creation with. *)
Record TapResult := mkResult {
  result_id : string;
  result_temporaryAccessPass : string;
  result_createdDateTime : DateString;
  result_lifetimeInMinutes : Z;
  result_isUsableOnce : bool
}.

(** The error document the graph answers a refused call with; both
    [error] and [error.message] may be missing. *)
Record ErrorDetail := mkDetail { detail_message : option string }.
Record ErrorData := mkErrorData { data_error : option ErrorDetail }.

(** A parsed response body of the creation call. *)
Inductive PostBody :=
| ErrorShape (errorData : ErrorData)
| TapShape (result : TapResult).

(** [requestBody] *)
Record RequestBody := mkRequest {
  request_odata_type : string;
  request_lifetimeInMinutes : JsVal;
  request_isUsableOnce : JsVal
}.

(** [window.authManager] as the TAP manager reads it. *)
Record AuthManager := mkAuth {
  isAuthenticated : bool;
  username : string;              (* currentUser.username *)
  getAccessToken : Completion string
}.

(** The surroundings of one call: the global auth manager (if
    defined), the graph endpoints, the clock, whether localStorage
    accepts a write, whether the page has a ['tapCountdown'] element
    and how [displayGeneratedTAP] ends (it throws when the animation
    of the container does). *)
Record Env := mkEnv {
  authManager : option AuthManager;
  post : string -> RequestBody -> Completion (Response PostBody);
  delete : string -> string -> Completion (Response unit);
  now : Z;
  writable : bool;
  countdownElement : bool;
  displayGeneratedTAP : Completion unit
}.

(** The manager object with the browser state it owns: the
    ['tapHistory'] entry of localStorage and the running intervals
    (handle to the expiry time its callback closes over). *)
Record Manager := mkManager {
  currentTAP : option TAP;
  tapHistory : list TAP;
  currentCountdownInterval : option Z;
  storage : option (list TAP);
  intervals : gmap Z (option Z);
  nextHandle : Z
}.

Definition setCurrentTAP (t : option TAP) (m : Manager) : Manager :=
  {| currentTAP := t; tapHistory := tapHistory m;
     currentCountdownInterval := currentCountdownInterval m;
     storage := storage m; intervals := intervals m;
     nextHandle := nextHandle m |}.

Definition setHistory (h : list TAP) (m : Manager) : Manager :=
  {| currentTAP := currentTAP m; tapHistory := h;
     currentCountdownInterval := currentCountdownInterval m;
     storage := storage m; intervals := intervals m;
     nextHandle := nextHandle m |}.

Definition setCountdown (c : option Z) (m : Manager) : Manager :=
  {| currentTAP := currentTAP m; tapHistory := tapHistory m;
     currentCountdownInterval := c;
     storage := storage m; intervals := intervals m;
     nextHandle := nextHandle m |}.

(** [setInterval(callback, 1000)]: a fresh non-zero handle. *)
Definition setInterval (expiresTime : option Z) (m : Manager)
  : Z * Manager :=
  (nextHandle m,
   {| currentTAP := currentTAP m; tapHistory := tapHistory m;
      currentCountdownInterval := currentCountdownInterval m;
      storage := storage m;
      intervals := <[nextHandle m := expiresTime]> (intervals m);
      nextHandle := nextHandle m + 1 |}).

Definition clearInterval (h : Z) (m : Manager) : Manager :=
  {| currentTAP := currentTAP m; tapHistory := tapHistory m;
     currentCountdownInterval := currentCountdownInterval m;
     storage := storage m;
     intervals := base.delete h (intervals m);
     nextHandle := nextHandle m |}.

Definition saveHistory (writable : bool) (m : Manager) : Manager :=
  if writable then
    {| currentTAP := currentTAP m; tapHistory := tapHistory m;
       currentCountdownInterval := currentCountdownInterval m;
       storage := Some (tapHistory m); intervals := intervals m;
       nextHandle := nextHandle m |}
  else m.

(** [new TAPManager()] on a freshly loaded page: the constructor and
    [init], which reads the saved history back. *)
Definition constructor (saved : option (list TAP)) : Manager :=
  {| currentTAP := None;
     tapHistory := match saved with Some h => h | None => [] end;
     currentCountdownInterval := None;
     storage := saved;
     intervals := ∅;
     nextHandle := 1 |}.

Definition addToHistory (writable : bool) (tapData : TAP) (m : Manager)
  : Manager :=
  let m1 :=
    if (10 <=? length (tapHistory m))%nat
    then setHistory (slice_last 9 (tapHistory m)) m
    else m in
  saveHistory writable (setHistory (tapHistory m1 ++ [tapData]) m1).

Definition hideTAPDisplay (m : Manager) : Manager :=
  let m1 :=
    match currentCountdownInterval m with
    | Some h =>
        if negb (h =? 0)
        then setCountdown None (clearInterval h m)
        else m
    | None => m
    end in
  setCurrentTAP None m1.

(** [remaining <= 0] for [remaining = expiresTime - now], false when
    [expiresTime] is NaN. *)
Definition expired (expiresTime : option Z) (now : Z) : bool :=
  match expiresTime with
  | Some e => e - now <=? 0
  | None => false
  end.

(** The closure [updateCountdown] of [startTAPCountdown]. *)
Definition updateCountdown (expiresTime : option Z) (now : Z)
    (m : Manager) : Manager :=
  if expired expiresTime now then hideTAPDisplay m else m.

Definition startTAPCountdown (countdownElement : bool) (now : Z)
    (tapData : TAP) (m : Manager) : Manager :=
  if negb countdownElement then m
  else
    let expiresTime := expiresDateTime tapData in
    let m1 := updateCountdown expiresTime now m in
    let '(interval, m2) := setInterval expiresTime m1 in
    setCountdown (Some interval) m2.

(** One firing of the interval [h]. *)
Definition tick (h : Z) (now : Z) (m : Manager) : Manager :=
  match intervals m !! h with
  | Some expiresTime => updateCountdown expiresTime now m
  | None => m
  end.

(** [{ lifetimeInMinutes: config.lifetimeInMinutes || 60,
       isUsableOnce: config.isUsableOnce || false, ...config }] *)
Definition tapConfig (config : gmap string JsVal) : gmap string JsVal :=
  config ∪
    <["lifetimeInMinutes" := or (get config "lifetimeInMinutes") (JNum 60)]>
    (<["isUsableOnce" := or (get config "isUsableOnce") (JBool false)]> ∅).

Definition requestBody (config : gmap string JsVal) : RequestBody :=
  {| request_odata_type :=
       "#microsoft.graph.temporaryAccessPassAuthenticationMethod";
     request_lifetimeInMinutes := get (tapConfig config) "lifetimeInMinutes";
     request_isUsableOnce := get (tapConfig config) "isUsableOnce" |}.

(** [errorData.error?.message] *)
Definition errorMessage (b : PostBody) : option string :=
  match b with
  | ErrorShape d =>
      match data_error d with
      | Some e => detail_message e
      | None => None
      end
  | TapShape _ => None
  end.

(** The [tapData] literal; a body without the pass fields gives an
    invalid date, on which [toISOString] throws. *)
Definition makeTapData (am : AuthManager) (b : PostBody)
  : Completion TAP :=
  match b with
  | TapShape result =>
      let created := result_createdDateTime result in
      let expires :=
        newDate (option_map
                   (fun t => t + result_lifetimeInMinutes result * 60000)
                   created) in
      let* iso := toISOString expires in
      Return {| id := result_id result;
                temporaryAccessPass := result_temporaryAccessPass result;
                createdDateTime := created;
                lifetimeInMinutes := result_lifetimeInMinutes result;
                isUsableOnce := result_isUsableOnce result;
                expiresDateTime := iso;
                createdBy := username am |}
  | ErrorShape _ => Throw (Error "Invalid time value")
  end.

(** The [try] block of [generateTAP] up to the construction of
    [tapData]: nothing of the manager is written before that. *)
Definition issue (config : gmap string JsVal) (env : Env)
  : Completion TAP :=
  match authManager env with
  | None => Throw (Error "Usuario no autenticado")
  | Some am =>
      if negb (isAuthenticated am)
      then Throw (Error "Usuario no autenticado")
      else
        let* token := getAccessToken am in
        let* response := post env token (requestBody config) in
        if negb (ok response) then
          let* errorData := json response in
          Throw (Error ("Error Graph API: " +:+
                        str_or (errorMessage errorData)
                               (statusText response)))
        else
          let* result := json response in
          makeTapData am result
  end.

(** [generateTAP]: the [catch] reports the error and throws it again.
    An error of the display comes after the pass has been made the
    current TAP and added to the history, and before the countdown. *)
Definition generateTAP (config : gmap string JsVal) (env : Env)
    (m : Manager) : Completion TAP * Manager :=
  match issue config env with
  | Throw e => (Throw e, m)
  | Return tapData =>
      let m1 :=
        addToHistory (writable env) tapData
          (setCurrentTAP (Some tapData) m) in
      match displayGeneratedTAP env with
      | Throw e => (Throw e, m1)
      | Return _ =>
          (Return tapData,
           startTAPCountdown (countdownElement env) (now env) tapData m1)
      end
  end.

(** The [try] block of [deleteTAP]. *)
Definition deleteTAP_try (tapId : string) (env : Env) (m : Manager)
  : Completion Manager :=
  match authManager env with
  | None => Throw (Error "Usuario no autenticado")
  | Some am =>
      if negb (isAuthenticated am)
      then Throw (Error "Usuario no autenticado")
      else
        let* token := getAccessToken am in
        let* response := delete env token tapId in
        if negb (ok response) && negb (status response =? 204)
        then Throw (Error ("Error Graph API: " +:+ pretty (status response)))
        else
          Return
            (saveHistory (writable env)
               (setHistory
                  (List.filter (fun tap => negb (String.eqb (id tap) tapId))
                               (tapHistory m))
                  m))
  end.

Definition deleteTAP (tapId : string) (env : Env) (m : Manager)
  : Completion bool * Manager :=
  match deleteTAP_try tapId env m with
  | Return m' => (Return true, m')
  | Throw _ => (Return false, m)
  end.

(** What can happen to the TAP page. *)
Inductive event :=
| Reload
| Generate (config : gmap string JsVal) (env : Env)
| Delete (tapId : string) (env : Env)
| Tick (h : Z) (now : Z).

Definition step (m : Manager) (ev : event) : Manager :=
  match ev with
  | Reload => constructor (storage m)
  | Generate config env => snd (generateTAP config env m)
  | Delete tapId env => snd (deleteTAP tapId env m)
  | Tick h now => tick h now m
  end.

Definition run (m : Manager) (evs : list event) : Manager :=
  fold_left step evs m.

(** The first visit: empty localStorage. *)
Definition boot : Manager := constructor None.

(** The history and its saved copy hold at most ten passes. *)
Definition capped (m : Manager) : Prop :=
  (length (tapHistory m) <= 10)%nat /\
  forall h, storage m = Some h -> (length h <= 10)%nat.

End Tap.

(* ===================================================================== *)
(** ** Concrete surroundings used in the examples below *)
(* ===================================================================== *)

Module Scenario.
Import Tap.

Definition user : AuthManager :=
  {| isAuthenticated := true;
     username := "user@example.org";
     getAccessToken := Return "token" |}.

(** A graph that creates the pass [result] and accepts every delete
    with 204. *)
Definition creating (result : TapResult) (clock : Z) : Env :=
  {| authManager := Some user;
     post := fun _ _ =>
       Return (mkResponse true 201 "Created" (Return (TapShape result)));
     delete := fun _ _ =>
       Return (mkResponse true 204 "No Content" (Return tt));
     now := clock;
     writable := true;
     countdownElement := true;
     displayGeneratedTAP := Return tt |}.

(** A graph that refuses the creation with status 400 and the error
    document [{error: {message: msg}}]. *)
Definition refusing (msg : string) : Env :=
  {| authManager := Some user;
     post := fun _ _ =>
       Return (mkResponse false 400 "Bad Request"
                 (Return (ErrorShape (mkErrorData (Some (mkDetail (Some msg)))))));
     delete := fun _ _ =>
       Return (mkResponse false 404 "Not Found" (Return tt));
     now := 0;
     writable := true;
     countdownElement := true;
     displayGeneratedTAP := Return tt |}.

(** A graph that rejects every creation and names, in the error, the
    lifetime and the single-use flag that the request carried. *)
Definition picky : Env :=
  {| authManager := Some user;
     post := fun _ request =>
       Throw (Error
                (match request_lifetimeInMinutes request with
                 | JNum 0 => "lifetime 0"
                 | JNum 60 => "lifetime 60"
                 | _ => "another lifetime"
                 end +:+
                 match request_isUsableOnce request with
                 | JBool false => ", reusable"
                 | JBool true => ", single use"
                 | _ => ", another flag"
                 end));
     delete := fun _ _ =>
       Return (mkResponse false 404 "Not Found" (Return tt));
     now := 0;
     writable := true;
     countdownElement := true;
     displayGeneratedTAP := Return tt |}.

(** A one-minute pass created at time 0 and a one-hour pass created
    thirty seconds later. *)
Definition shortPass : TapResult :=
  {| result_id := "tap-1"; result_temporaryAccessPass := "AAAA1111";
     result_createdDateTime := Some 0;
     result_lifetimeInMinutes := 1; result_isUsableOnce := true |}.

Definition longPass : TapResult :=
  {| result_id := "tap-2"; result_temporaryAccessPass := "BBBB2222";
     result_createdDateTime := Some 30000;
     result_lifetimeInMinutes := 60; result_isUsableOnce := false |}.

(** Both passes generated in turn, the second while the first is
    still counting down. *)
Definition twoPasses : Manager :=
  run boot [Generate ∅ (creating shortPass 0);
            Generate ∅ (creating longPass 30000)].

(** Only the short pass generated. *)
Definition onePass : Manager :=
  run boot [Generate ∅ (creating shortPass 0)].

(** The pass number [n] of a series, and a manager whose history
    holds the passes 1 to 10. *)
Definition pass (n : Z) : TAP :=
  {| id := pretty n; temporaryAccessPass := "CCCC3333";
     createdDateTime := Some (n * 1000); lifetimeInMinutes := 60;
     isUsableOnce := false;
     expiresDateTime := Some (n * 1000 + 3600000);
     createdBy := "user@example.org" |}.

Definition tenPasses : Manager :=
  {| currentTAP := None;
     tapHistory := map pass [1; 2; 3; 4; 5; 6; 7; 8; 9; 10];
     currentCountdownInterval := None;
     storage := Some (map pass [1; 2; 3; 4; 5; 6; 7; 8; 9; 10]);
     intervals := ∅;
     nextHandle := 1 |}.

(** A Windows Hello registration next to a password, and graphs that
    list given methods or are out of service. *)
Definition hello : Auth.Method :=
  Auth.mkMethod Auth.windowsHello "hello-1".

Definition password : Auth.Method :=
  Auth.mkMethod "#microsoft.graph.passwordAuthenticationMethod" "pw-1".

Definition listing (l : list Auth.Method) : Auth.Remote Auth.MethodsBody :=
  Auth.mkRemote (Return "token")
    (fun _ => Return (mkResponse true 200 "OK"
                        (Return (Auth.mkMethodsBody (Some l))))).

Definition outOfService : Auth.Remote Auth.MethodsBody :=
  Auth.mkRemote (Return "token")
    (fun _ => Return (mkResponse false 503 "Service Unavailable"
                        (Throw (Error "Unexpected end of JSON input")))).

(** The page opened by a signed-in user without passwordless methods,
    then two ways through the wizard: validating straight away, and
    taking the three steps in turn up to the completion screen. *)
Definition signedIn : Wizard.event :=
  Wizard.Reload true true
    (Return (Auth.checkPasswordlessStatus (listing [password]))).

Definition hasty : list Wizard.event :=
  [signedIn;
   Wizard.ClickValidate false;
   Wizard.Fires Wizard.ValidateDelay Wizard.Completes true].

Definition orderly : list Wizard.event :=
  [signedIn;
   Wizard.ClickVerify false;
   Wizard.Fires Wizard.VerifyDelay Wizard.Completes true;
   Wizard.ClickNext true;
   Wizard.ClickSetup false;
   Wizard.Fires Wizard.SetupDelay Wizard.Completes true;
   Wizard.ClickNext true;
   Wizard.ClickValidate false;
   Wizard.Fires Wizard.ValidateDelay Wizard.Completes true;
   Wizard.Fires Wizard.CompletionDelay Wizard.Completes true].

(** The two first steps in turn, then two calls of [nextStep] in one
    script. *)
Definition rushed : list Wizard.event :=
  [signedIn;
   Wizard.ClickVerify false;
   Wizard.Fires Wizard.VerifyDelay Wizard.Completes true;
   Wizard.ClickNext true;
   Wizard.ClickSetup false;
   Wizard.Fires Wizard.SetupDelay Wizard.Completes true;
   Wizard.Script [Wizard.CallNext true; Wizard.CallNext true]].

(** The first step, then two calls of [nextStep] in one script, which
    bring the cursor to step 3, and the validation from there. *)
Definition skipping : list Wizard.event :=
  [signedIn;
   Wizard.ClickVerify false;
   Wizard.Fires Wizard.VerifyDelay Wizard.Completes true;
   Wizard.Script [Wizard.CallNext true; Wizard.CallNext true];
   Wizard.ClickValidate false;
   Wizard.Fires Wizard.ValidateDelay Wizard.Completes true].

(** A wizard on step 1 whose requirements are verified. *)
Definition verified : Wizard.Manager :=
  Wizard.mkManager 1 (Wizard.mkProgress true false false false []) None [].

End Scenario.

(* ===================================================================== *)
(** ** PasswordlessManager: what [updateUI] shows (main.js) *)
(* ===================================================================== *)

Module WizardView.
Import Wizard.

(** The class that [updateStepIndicators] leaves on an indicator:
    [bg-green-600], [bg-blue-600] or [bg-gray-300]. *)
Inductive colour :=
| Green
| Blue
| Gray.

Definition indicator (m : Manager) (i : Z) : colour :=
  if i <? currentStep m then Green
  else if i =? currentStep m then Blue
  else Gray.

(** The loop over [i = 1 .. totalSteps]. *)
Definition updateStepIndicators (m : Manager) : list colour :=
  map (indicator m) (seqZ 1 totalSteps).

(** Which of the three navigation buttons are displayed. *)
Record Buttons := mkButtons {
  prevBtn : bool;
  nextBtn : bool;
  completeBtn : bool
}.

Definition updateNavigationButtons (m : Manager) : Buttons :=
  {| prevBtn := 1 <? currentStep m;
     nextBtn := negb (currentStep m =? totalSteps);
     completeBtn := currentStep m =? totalSteps |}.



(** An event during which localStorage works and the status query
    neither throws nor reports passwordless as enabled. *)
Definition durable (ev : event) : bool :=
  match ev with
  | Reload readable isAuthenticated st =>
      readable &&
      (negb isAuthenticated ||
       match st with
       | Return s => negb (Auth.hasPasswordless s)
       | Throw _ => false
       end)
  | ClickNext writable => writable
  | Fires _ _ writable => writable
  | _ => true
  end.


(** The saved copy is what a reload would read back as the progress. *)
Definition persisted (m : Manager) : Prop :=
  userProgress m = loadProgress true (storage m).

(** The completion screen, and a pending jump to it, come with
    [step3] and [passwordlessEnabled]. *)
Definition earned (m : Manager) : Prop :=
  (totalSteps < currentStep m \/ In CompletionDelay (timers m) ->
   step3 (userProgress m) = true /\
   passwordlessEnabled (userProgress m) = true) /\
  1 <= currentStep m <= totalSteps + 1.

End WizardView.

(* ===================================================================== *)
(** ** TAPManager: listing, copying and the form (tap.js) *)
(* ===================================================================== *)

Module TapPage.
Import Tap.

(** The body of the listing of passes: [{ value: [...] }]. *)
Record TapList := mkTapList { value : list TapResult }.

(** The [try] block of [getTAPMethods]. *)
Definition getTAPMethods_try (authManager : option AuthManager)
    (fetch : string -> Completion (Response TapList))
  : Completion TapList :=
  match authManager with
  | None => Throw (Error "Usuario no autenticado")
  | Some am =>
      if negb (isAuthenticated am)
      then Throw (Error "Usuario no autenticado")
      else
        let* token := getAccessToken am in
        let* response := fetch token in
        if negb (ok response)
        then Throw (Error ("Error Graph API: " +:+ pretty (status response)))
        else json response
  end.

Definition getTAPMethods (authManager : option AuthManager)
    (fetch : string -> Completion (Response TapList)) : TapList :=
  match getTAPMethods_try authManager fetch with
  | Return methods => methods
  | Throw _ => {| value := [] |}
  end.

(** What the page tells the user: [showTAPError] or [showTAPSuccess]. *)
Inductive notice :=
| TAPError (msg : string)
| TAPSuccess (msg : string).

(** [copyTAPToClipboard]: the text handed to the clipboard, if any,
    and the notice shown; [clipboard] is false when [writeText]
    rejects. *)
Definition copyTAPToClipboard (clipboard : bool) (m : Manager)
  : option string * notice :=
  match currentTAP m with
  | None => (None, TAPError "No hay TAP para copiar")
  | Some tap =>
      if String.eqb (temporaryAccessPass tap) ""
      then (None, TAPError "No hay TAP para copiar")
      else if clipboard
      then (Some (temporaryAccessPass tap),
            TAPSuccess "TAP copiado al portapapeles")
      else (Some (temporaryAccessPass tap),
            TAPError "Error al copiar TAP")
  end.

(** [new Date(tap.expiresDateTime) < new Date()] in [refreshTAPList]:
    false when the expiry is not a date. *)
Definition isExpired (now : Z) (tap : TAP) : bool :=
  match expiresDateTime tap with
  | Some e => e <? now
  | None => false
  end.

(** A card of the history list: the id its delete button passes to
    [deleteTAP], the EXPIRADO/ACTIVO label, the single-use badge and
    the duration. *)
Record Card := mkCard {
  card_id : string;
  card_expired : bool;
  card_singleUse : bool;
  card_minutes : Z
}.

(** [refreshTAPList]: [None] is the "No hay TAPs generados" text. *)
Definition refreshTAPList (now : Z) (m : Manager) : option (list Card) :=
  match tapHistory m with
  | [] => None
  | h =>
      Some (map (fun tap =>
                   {| card_id := id tap;
                      card_expired := isExpired now tap;
                      card_singleUse := isUsableOnce tap;
                      card_minutes := lifetimeInMinutes tap |}) h)
  end.

(** The [config] that the click handler of the form builds:
    [lifetime] is the result of [parseInt] ([None] for NaN) and
    [usableOnce] the value of the checkbox field, if submitted. *)
Definition formConfig (lifetime : option Z) (usableOnce : option string)
  : gmap string JsVal :=
  <["lifetimeInMinutes" :=
      match lifetime with
      | Some n => or (JNum n) (JNum 60)
      | None => JNum 60
      end]>
  (<["isUsableOnce" :=
      JBool (match usableOnce with
             | Some v => String.eqb v "on"
             | None => false
             end)]> ∅).

(** The click handler of the generate button: the error that
    [generateTAP] throws is swallowed. *)
Definition onGenerateClick (lifetime : option Z)
    (usableOnce : option string) (env : Env) (m : Manager) : Manager :=
  match authManager env with
  | None => m
  | Some am =>
      if negb (isAuthenticated am) then m
      else snd (generateTAP (formConfig lifetime usableOnce) env m)
  end.

(** A generate or delete during which localStorage accepts writes. *)
Definition saves (ev : event) : bool :=
  match ev with
  | Generate _ env => writable env
  | Delete _ env => writable env
  | _ => true
  end.

(** Generating and ticking, but neither deleting nor reloading. *)
Definition issuing (ev : event) : bool :=
  match ev with
  | Generate _ _ | Tick _ _ => true
  | _ => false
  end.

(** The passes that the [generateTAP] calls of a run build from the
    answers of the graph (the [tapData] objects), in the order of the
    calls. *)
Definition issued (evs : list event) : list TAP :=
  flat_map (fun ev =>
              match ev with
              | Generate config env =>
                  match issue config env with
                  | Return tap => [tap]
                  | Throw _ => []
                  end
              | _ => []
              end) evs.

(** The saved copy is what a reload would read back as the history. *)
Definition mirrored (m : Manager) : Prop :=
  tapHistory m = match storage m with Some h => h | None => [] end.

(** The handles of the running intervals are the positive numbers
    handed out so far, and the handle the manager holds is running. *)
Definition handled (m : Manager) : Prop :=
  1 <= nextHandle m /\
  (forall h e, intervals m !! h = Some e -> 1 <= h < nextHandle m) /\
  (forall h, currentCountdownInterval m = Some h ->
             exists e, intervals m !! h = Some e).

End TapPage.

(* ===================================================================== *)
(** ** AuthManager: the session (tap.js) *)
(* ===================================================================== *)

Module Session.

Record Account := mkAccount {
  name : string;
  username : string
}.

(** The fields of the manager, and whether the page has the global
    [msal] of the library's script; [msalInstance] is whether the
    client object exists and [redirectPromise] whether the promise of
    [handleRedirectPromise] is still to settle. *)
Record AuthManager := mkAuthManager {
  msal : bool;
  msalInstance : bool;
  currentUser : option Account;
  isAuthenticated : bool;
  redirectPromise : bool
}.

(** The fields as the constructor sets them, before [init], on a page
    where the script of the library is [loaded] or not. *)
Definition constructed (loaded : bool) : AuthManager :=
  {| msal := loaded; msalInstance := false; currentUser := None;
     isAuthenticated := false; redirectPromise := false |}.

(** The ReferenceError of reading the global [msal] on a page without
    the library. *)
Definition msalUndefined : JsError := Error "msal is not defined".

(** [init]: [created] and [initialized] tell whether the construction
    of the client (which needs the global [msal]) and its
    [initialize()] went through; [accounts] is [getAllAccounts()]. *)
Definition init (created initialized : bool) (accounts : list Account)
    (a : AuthManager) : AuthManager :=
  if negb (msal a && created) then a
  else if negb initialized then
    {| msal := msal a;
       msalInstance := true; currentUser := currentUser a;
       isAuthenticated := isAuthenticated a;
       redirectPromise := redirectPromise a |}
  else
    match accounts with
    | account :: _ =>
        {| msal := msal a;
           msalInstance := true; currentUser := Some account;
           isAuthenticated := true; redirectPromise := true |}
    | [] =>
        {| msal := msal a;
           msalInstance := true; currentUser := currentUser a;
           isAuthenticated := isAuthenticated a;
           redirectPromise := true |}
    end.

(** The [then] of [handleRedirectPromise]: [response] is the account
    of the response, [None] when there is no response. *)
Definition handleRedirect (response : option Account) (a : AuthManager)
  : AuthManager :=
  match response with
  | Some account =>
      {| msal := msal a;
         msalInstance := msalInstance a; currentUser := Some account;
         isAuthenticated := true; redirectPromise := false |}
  | None =>
      {| msal := msal a;
         msalInstance := msalInstance a; currentUser := currentUser a;
         isAuthenticated := isAuthenticated a; redirectPromise := false |}
  end.

(** [login]: [init] again when there is no client; the redirect itself
    leaves the fields alone. *)
Definition login (created initialized : bool) (accounts : list Account)
    (a : AuthManager) : AuthManager :=
  if negb (msalInstance a) then init created initialized accounts a
  else a.

(** How [acquireTokenSilent] ends: with a token, with an
    [InteractionRequiredAuthError] or with another error. *)
Inductive silent :=
| Token (accessToken : string)
| InteractionRequired (e : JsError)
| Failed (e : JsError).

(** The [catch] of [getAccessToken]: the test
    [error instanceof msal.InteractionRequiredAuthError] reads the
    global [msal] and throws a ReferenceError when there is none;
    [interaction] tells whether the error caught is of that class. *)
Definition getAccessToken_catch (a : AuthManager) (interaction : bool)
    (error : JsError) (acquireTokenRedirect : Completion string)
  : Completion string :=
  if negb (msal a) then Throw msalUndefined
  else if interaction then acquireTokenRedirect
  else Throw error.

Definition getAccessToken (a : AuthManager) (acquireTokenSilent : silent)
    (acquireTokenRedirect : Completion string) : Completion string :=
  if negb (msalInstance a) ||
     match currentUser a with Some _ => false | None => true end
  then getAccessToken_catch a false (Error "No hay sesión activa")
         acquireTokenRedirect
  else
    match acquireTokenSilent with
    | Token t => Return t
    | InteractionRequired e =>
        getAccessToken_catch a true e acquireTokenRedirect
    | Failed e => getAccessToken_catch a false e acquireTokenRedirect
    end.

Inductive event :=
| Init (created initialized : bool) (accounts : list Account)
| Redirected (response : option Account)
| Login (created initialized : bool) (accounts : list Account)
| Logout.

Definition step (a : AuthManager) (ev : event) : AuthManager :=
  match ev with
  | Init created initialized accounts =>
      init created initialized accounts a
  | Redirected response =>
      if redirectPromise a then handleRedirect response a else a
  | Login created initialized accounts =>
      login created initialized accounts a
  | Logout => a
  end.

Definition run (a : AuthManager) (evs : list event) : AuthManager :=
  fold_left step evs a.

(** An event in which no client gets created. *)
Definition clientless (ev : event) : bool :=
  match ev with
  | Init created _ _ | Login created _ _ => negb created
  | _ => true
  end.

(** Being authenticated comes with a client and a user, and a client
    with the library. *)
Definition signed (a : AuthManager) : Prop :=
  (isAuthenticated a = true ->
   msalInstance a = true /\ exists u, currentUser a = Some u) /\
  (redirectPromise a = true -> msalInstance a = true) /\
  (msalInstance a = true -> msal a = true).

End Session.

(* ===================================================================== *)
(** ** Properties of the wizard *)
(* ===================================================================== *)

Section WizardFacts.
Import Wizard.

Lemma take_sound (t : task) (l r : list task) :
  take t l = Some r -> In t l /\ forall x, In x r -> In x l.
Proof.
  revert r. induction l as [|x l IH]; intros r H; simpl in H.
  - discriminate.
  - destruct (task_eqb x t) eqn:E.
    + inversion H; subst. split.
      * left. destruct x, t; simpl in E; congruence.
      * intros y Hy. now right.
    + destruct (take t l) as [r'|]; simpl in H; [|discriminate].
      inversion H; subst. destruct (IH r' eq_refl) as [Ht Hsub].
      split; [now right|].
      intros y [Hy|Hy]; [now left | right; auto].
Qed.

Lemma In_snoc (t x : task) (l : list task) :
  In x (l ++ [t]) -> In x l \/ x = t.
Proof.
  intros H. apply in_app_or in H. destruct H as [H|[H|[]]]; auto.
Qed.

(** *** Navigation *)


Lemma nextStep_cases (w : bool) (m : Manager) :
  nextStep w m = m \/
  (currentStep m < totalSteps /\ validateCurrentStep m = true /\
   currentStep (nextStep w m) = currentStep m + 1 /\
   timers (nextStep w m) = timers m).
Proof.
  unfold nextStep, nextStep_start, nextStep_resume.
  destruct (currentStep m <? totalSteps) eqn:Hlt; [|now left].
  destruct (validateCurrentStep m) eqn:Hv; simpl; [|now left].
  right. apply Z.ltb_lt in Hlt.
  destruct w; simpl; auto.
Qed.

Lemma prevStep_cases (m : Manager) :
  (prevStep m = m /\ currentStep m <= 1) \/
  (1 < currentStep m /\ prevStep m = setStep (currentStep m - 1) m).
Proof.
  unfold prevStep. destruct (1 <? currentStep m) eqn:H.
  - right. apply Z.ltb_lt in H. auto.
  - left. apply Z.ltb_ge in H. auto.
Qed.

(** *** Scripts *)

Lemma later_refl (m : Manager) : later m m.
Proof. unfold later. split; [lia | reflexivity]. Qed.

Lemma later_trans (m1 m2 m3 : Manager) :
  later m1 m2 -> later m2 m3 -> later m1 m3.
Proof. unfold later. intros [H1 E1] [H2 E2]. split; [lia | congruence]. Qed.

Lemma callSync_later (c : call) (m : Manager) : later m (callSync c m).
Proof.
  destruct c as [w| | |th|th|th]; simpl; try apply later_refl.
  - destruct (prevStep_cases m) as [[-> _]|[H ->]];
      [apply later_refl|]. split; simpl; [lia | reflexivity].
  - unfold verifyRequirements_start, later.
    destruct th; simpl; split; (lia || reflexivity).
  - unfold setupAuthenticationMethods_start, later.
    destruct th; simpl; split; (lia || reflexivity).
  - unfold validateSetup_start, later.
    destruct th; simpl; split; (lia || reflexivity).
Qed.

Lemma guarded_any (m : Manager) (calls : list call) :
  guarded (fun _ _ => true) m calls = true.
Proof.
  revert m. induction calls as [|c calls IH]; intros m; [reflexivity|].
  destruct c; simpl; auto.
Qed.

(** The calls that come before any continuation runs keep what every
    call keeps. *)
Lemma runCalls_keeps (P : Manager -> Prop) (G : Manager -> call -> bool) :
  (forall m c, P m -> G m c = true -> P (callSync c m)) ->
  forall calls m,
    guarded G m calls = true -> P m -> P (fst (runCalls calls m)).
Proof.
  intros P_sync calls.
  induction calls as [|c calls IH]; intros m Hg Hm; [exact Hm|].
  destruct c; simpl in *; try exact Hm;
    apply andb_true_iff in Hg as [Hc Hg];
    apply IH; try exact Hg; apply (P_sync m _ Hm Hc).
Qed.

Lemma runCalls_quiet (calls : list call) (m : Manager) :
  nexts calls = 0%nat ->
  snd (runCalls calls m) = [] /\ later m (fst (runCalls calls m)).
Proof.
  revert m. induction calls as [|c calls IH]; intros m Hn.
  - split; [reflexivity | apply later_refl].
  - assert (Hc : forall c', c' = c -> callAwait c' m = [] ->
                   nexts calls = 0%nat ->
                   snd (runCalls calls (callSync c' m)) = [] /\
                   later m (fst (runCalls calls (callSync c' m)))).
    { intros c' _ _ Hn'. destruct (IH (callSync c' m) Hn') as [Hq Hl].
      split; [exact Hq|].
      eapply later_trans; [apply callSync_later | exact Hl]. }
    destruct c as [w| | |th|th|th]; unfold nexts in Hn; simpl in Hn;
      try discriminate; simpl.
    + apply (Hc CallPrev eq_refl eq_refl Hn).
    + split; [reflexivity | apply later_refl].
    + apply (Hc (CallVerify th) eq_refl eq_refl Hn).
    + apply (Hc (CallSetup th) eq_refl eq_refl Hn).
    + apply (Hc (CallValidate th) eq_refl eq_refl Hn).
Qed.

(** With at most one call of [nextStep], at most one continuation is
    left, and it was left in a state that the final one is [later]
    than. *)
Lemma runCalls_serial (P : Manager -> Prop) (G : Manager -> call -> bool) :
  (forall m c, P m -> G m c = true -> P (callSync c m)) ->
  forall calls m,
    (nexts calls <= 1)%nat ->
    guarded G m calls = true ->
    P m ->
    snd (runCalls calls m) = [] \/
    exists v w m1,
      snd (runCalls calls m) = [(v, w)] /\
      P m1 /\ later m1 (fst (runCalls calls m)) /\
      nextStep_start m1 = Some v.
Proof.
  intros P_sync calls.
  induction calls as [|c calls IH]; intros m Hn Hg Hm; [now left|].
  destruct c as [w| | |th|th|th]; simpl in *; try (now left);
    apply andb_true_iff in Hg as [Hc Hg].
  - assert (Hn0 : nexts calls = 0%nat) by (unfold nexts in *; simpl in *; lia).
    destruct (runCalls_quiet calls m Hn0) as [-> Hl].
    rewrite app_nil_r.
    destruct (nextStep_start m) as [v|] eqn:Ev; [|now left].
    right. exists v, w, m. auto.
  - apply (IH _ Hn Hg). apply (P_sync m CallPrev Hm Hc).
  - apply (IH _ Hn Hg). apply (P_sync m (CallVerify th) Hm Hc).
  - apply (IH _ Hn Hg). apply (P_sync m (CallSetup th) Hm Hc).
  - apply (IH _ Hn Hg). apply (P_sync m (CallValidate th) Hm Hc).
Qed.

(** A script with at most one call of [nextStep] keeps what every call
    keeps and what the continuation of [nextStep] keeps when it comes
    [later] than its guard. *)
Lemma script_serial (P : Manager -> Prop) (G : Manager -> call -> bool) :
  (forall m c, P m -> G m c = true -> P (callSync c m)) ->
  (forall m1 m2 w,
      P m1 -> P m2 -> later m1 m2 -> nextStep_start m1 = Some true ->
      P (nextStep_resume true w m2)) ->
  forall calls m,
    (nexts calls <= 1)%nat ->
    guarded G m calls = true ->
    P m -> P (script calls m).
Proof.
  intros P_sync P_resume calls m Hn Hg Hm. unfold script.
  pose proof (runCalls_keeps P G P_sync calls m Hg Hm) as Hk.
  destruct (runCalls_serial P G P_sync calls m Hn Hg Hm)
    as [->|(v & w & m1 & -> & Hm1 & Hl & Hv)]; [exact Hk|].
  simpl. destruct v; [|exact Hk].
  apply (P_resume m1 _ w Hm1 Hk Hl Hv).
Qed.

(** Any script keeps what every call and every continuation keep. *)
Lemma script_any (P : Manager -> Prop) (G : Manager -> call -> bool) :
  (forall m c, P m -> G m c = true -> P (callSync c m)) ->
  (forall m v w, P m -> P (nextStep_resume v w m)) ->
  forall calls m,
    guarded G m calls = true -> P m -> P (script calls m).
Proof.
  intros P_sync P_any calls m Hg Hm. unfold script.
  pose proof (runCalls_keeps P G P_sync calls m Hg Hm) as Hk.
  revert Hk. generalize (fst (runCalls calls m)) as m'.
  induction (snd (runCalls calls m)) as [|k queue IH]; intros m' Hk;
    [exact Hk|].
  simpl. apply IH, P_any, Hk.
Qed.

Lemma nextStep_start_Some (m : Manager) (v : bool) :
  nextStep_start m = Some v ->
  currentStep m < totalSteps /\ validateCurrentStep m = v.
Proof.
  unfold nextStep_start. destruct (currentStep m <? totalSteps) eqn:E;
    [|discriminate].
  intros H. inversion H. apply Z.ltb_lt in E. auto.
Qed.

Lemma nextStep_alone (w : bool) (m : Manager) :
  script [CallNext w] m = nextStep w m.
Proof.
  unfold script, nextStep. simpl.
  destruct (nextStep_start m); reflexivity.
Qed.

Lemma ranged_sync (m : Manager) (c : call) :
  1 <= currentStep m <= totalSteps + 1 ->
  1 <= currentStep (callSync c m) <= totalSteps + 1.
Proof.
  intros H. destruct (callSync_later c m) as [Hl _].
  split; [|lia].
  destruct c as [w| | |th|th|th]; simpl; try lia.
  - destruct (prevStep_cases m) as [[-> _]|[H1 ->]]; simpl; lia.
  - unfold verifyRequirements_start. destruct th; simpl; lia.
  - unfold setupAuthenticationMethods_start. destruct th; simpl; lia.
  - unfold validateSetup_start. destruct th; simpl; lia.
Qed.

Lemma ranged_resume (m1 m2 : Manager) (w : bool) :
  1 <= currentStep m1 <= totalSteps + 1 ->
  1 <= currentStep m2 <= totalSteps + 1 ->
  later m1 m2 -> nextStep_start m1 = Some true ->
  1 <= currentStep (nextStep_resume true w m2) <= totalSteps + 1.
Proof.
  intros _ H2 [Hl _] Hs. apply nextStep_start_Some in Hs as [Hlt _].
  unfold nextStep_resume, saveProgress, setStep.
  destruct w; simpl; lia.
Qed.

(** A script with at most one call of [nextStep] leaves the cursor at
    most one step above where it found it, and above it only when the
    guard and the flag read where it started let it pass. *)
Lemma script_advance (m : Manager) (calls : list call) :
  (nexts calls <= 1)%nat ->
  currentStep (script calls m) <= currentStep m + 1 /\
  (currentStep m < currentStep (script calls m) ->
   currentStep m < totalSteps /\ validateCurrentStep m = true).
Proof.
  intros Hn. unfold script.
  assert (Hsync : forall m' c,
             later m m' -> (fun _ _ => true) m' c = true ->
             later m (callSync c m')).
  { intros m' c Hl _. eapply later_trans; [exact Hl | apply callSync_later]. }
  pose proof (runCalls_keeps (later m) (fun _ _ => true) Hsync calls m
                (guarded_any m calls) (later_refl m)) as Hk.
  destruct (runCalls_serial (later m) (fun _ _ => true) Hsync calls m Hn
              (guarded_any m calls) (later_refl m))
    as [->|(v & w & m1 & -> & Hm1 & Hl & Hv)].
  - simpl. destruct Hk as [Hle _]. split; [lia | intros; lia].
  - simpl. apply nextStep_start_Some in Hv as [Hlt Hv].
    destruct Hk as [Hk _], Hm1 as [H1 E1], Hl as [H2 _].
    destruct v; unfold nextStep_resume, saveProgress, setStep; simpl.
    + split.
      * destruct w; simpl; lia.
      * intros Hgt.
        assert (E : currentStep m1 = currentStep m)
          by (destruct w; simpl in Hgt; lia).
        split; [lia|].
        unfold validateCurrentStep in *. rewrite <- E, <- E1. exact Hv.
    + split; [lia | intros; lia].
Qed.

(** C7, as the code has it.  With the cursor between 1 and
    [totalSteps + 1]: a call of [nextStep] whose continuation follows
    before any other call is made, as when the button is clicked,
    moves the cursor by one when it moves it, from step 1 or 2 whose
    completion flag is set; it changes nothing when the flag of the
    current step is not set; and it leaves the cursor at
    [totalSteps + 1] or below.  [prevStep] leaves the cursor at 1 or
    above.  And a script that makes at most one call of [nextStep],
    among any calls of [prevStep] and of the step handlers, leaves the
    cursor between 1 and [totalSteps + 1], at most one step above
    where it found it, and above it only from step 1 or 2 with the
    completion flag of that step set. *)
Theorem nextStep_gated_prevStep_bounded (w : bool) (m : Manager) :
  1 <= currentStep m <= totalSteps + 1 ->
  (currentStep (nextStep w m) <> currentStep m ->
     currentStep (nextStep w m) = currentStep m + 1 /\
     ((currentStep m = 1 /\ step1 (userProgress m) = true) \/
      (currentStep m = 2 /\ step2 (userProgress m) = true))) /\
  ((currentStep m = 1 /\ step1 (userProgress m) = false) \/
   (currentStep m = 2 /\ step2 (userProgress m) = false) \/
   (currentStep m = 3 /\ step3 (userProgress m) = false) ->
   nextStep w m = m) /\
  1 <= currentStep (prevStep m) /\
  currentStep (nextStep w m) <= totalSteps + 1 /\
  (forall calls : list call,
      (nexts calls <= 1)%nat ->
      1 <= currentStep (script calls m) <= totalSteps + 1 /\
      currentStep (script calls m) <= currentStep m + 1 /\
      (currentStep m < currentStep (script calls m) ->
       (currentStep m = 1 /\ step1 (userProgress m) = true) \/
       (currentStep m = 2 /\ step2 (userProgress m) = true))).
Proof.
  intros Hc.
  assert (Hprev : 1 <= currentStep (prevStep m)).
  { destruct (prevStep_cases m) as [[-> _]|[H1 ->]]; simpl; lia. }
  assert (Hscript : forall calls : list call,
             (nexts calls <= 1)%nat ->
             1 <= currentStep (script calls m) <= totalSteps + 1 /\
             currentStep (script calls m) <= currentStep m + 1 /\
             (currentStep m < currentStep (script calls m) ->
              (currentStep m = 1 /\ step1 (userProgress m) = true) \/
              (currentStep m = 2 /\ step2 (userProgress m) = true))).
  { intros calls Hn.
    destruct (script_advance m calls Hn) as [Hle Hadv].
    split; [|split; [exact Hle|]].
    - apply (script_serial (fun m' => 1 <= currentStep m' <= totalSteps + 1)
               (fun _ _ => true)).
      + intros m' c Hm' _. apply ranged_sync, Hm'.
      + apply ranged_resume.
      + exact Hn.
      + apply guarded_any.
      + exact Hc.
    - intros Hgt. destruct (Hadv Hgt) as [Hlt Hv].
      unfold totalSteps in Hlt. unfold validateCurrentStep in Hv.
      assert (currentStep m = 1 \/ currentStep m = 2) as [E|E] by lia;
        rewrite E in Hv; auto. }
  destruct (nextStep_cases w m) as [Hn|(Hlt & Hv & Hn & _)].
  - rewrite Hn. split; [intros Hne; now destruct Hne|].
    split; [reflexivity|]. split; [exact Hprev|]. split; [lia | exact Hscript].
  - unfold totalSteps in *. unfold validateCurrentStep in Hv.
    split; [|split; [|split; [exact Hprev | split; [lia | exact Hscript]]]].
    + intros _. split; [exact Hn|].
      assert (currentStep m = 1 \/ currentStep m = 2) as [E|E] by lia;
        rewrite E in Hv; auto.
    + intros [[E Hf]|[[E Hf]|[E Hf]]]; rewrite E in Hv; congruence.
Qed.

Lemma nextStep_gated_prevStep_bounded_witness :
  1 <= currentStep Scenario.verified <= totalSteps + 1 /\
  currentStep (nextStep true Scenario.verified) = 2 /\
  1 <= currentStep (prevStep Scenario.verified) /\
  currentStep (nextStep true Scenario.verified) <= totalSteps + 1 /\
  1 <= currentStep
         (script [CallPrev; CallNext true; CallValidate false]
            Scenario.verified) <= totalSteps + 1.
Proof.
  assert (Hc : 1 <= currentStep Scenario.verified <= totalSteps + 1)
    by (vm_compute; split; discriminate).
  split; [exact Hc|].
  destruct (nextStep_gated_prevStep_bounded true Scenario.verified Hc)
    as (Hadv & _ & Hprev & Hle & Hscript).
  split; [|split; [exact Hprev | split; [exact Hle|]]].
  - apply Hadv. discriminate.
  - apply Hscript. unfold nexts. simpl. lia.
Defined.

(** C7, as stated, fails when calls of [nextStep] overlap: each reads
    the cursor and the flag before any of them moves the cursor.  Two
    calls in a row on step 1, with only [step1] set, leave the cursor
    on step 3, past step 2 whose flag is not set; four leave it on 5,
    beyond [totalSteps + 1]. *)
Lemma overlapped_nextStep_overruns :
  1 <= currentStep Scenario.verified <= totalSteps + 1 /\
  step2 (userProgress Scenario.verified) = false /\
  currentStep
    (step Scenario.verified (Script [CallNext true; CallNext true])) = 3 /\
  currentStep
    (step Scenario.verified
       (Script [CallNext true; CallNext true; CallNext true; CallNext true]))
  = 5 /\
  totalSteps + 1 < 5.
Proof. vm_compute. repeat split; discriminate. Qed.

(** *** The completion screen *)

Ltac unfold_handlers :=
  unfold runTask, verifyRequirements_start, verifyRequirements_resume,
    setupAuthenticationMethods_start, setupAuthenticationMethods_resume,
    validateSetup_start, validateSetup_resume, completion,
    initializeApp, loadUserProgress, constructor, loadProgress,
    nextStep_resume, saveProgress, setTimeout, setProgress, setStep,
    setTimers in *.

Lemma stepping_sync (m : Manager) (c : call) :
  stepping m -> stepping (callSync c m).
Proof.
  intros [Hc Ht]. unfold stepping, totalSteps in *.
  destruct c as [w| | |th|th|th]; simpl; auto.
  - destruct (prevStep_cases m) as [[-> _]|[H1 ->]]; simpl; split; auto; lia.
  - unfold_handlers. destruct th; simpl; split; auto.
    intros H. apply In_snoc in H as [H|H]; [tauto | discriminate].
  - unfold_handlers. destruct th; simpl; split; auto.
    intros H. apply In_snoc in H as [H|H]; [tauto | discriminate].
  - unfold_handlers. destruct th; simpl; split; auto.
    intros H. apply In_snoc in H as [H|H]; [tauto | discriminate].
Qed.

Lemma stepping_resume (m1 m2 : Manager) (w : bool) :
  stepping m1 -> stepping m2 -> later m1 m2 ->
  nextStep_start m1 = Some true ->
  stepping (nextStep_resume true w m2).
Proof.
  intros _ [Hc Ht] [Hl _] Hs.
  apply nextStep_start_Some in Hs as [Hlt _].
  unfold stepping, totalSteps in *. unfold_handlers.
  destruct w; simpl; split; auto; lia.
Qed.

Lemma stepping_step (m : Manager) (ev : event) :
  stepping m -> serial ev = true -> completes m ev = false ->
  stepping (step m ev).
Proof.
  intros Hm Hs Hev.
  destruct ev as [r a st|w| | |th|th|th|t o w|calls]; simpl.
  - destruct Hm as [Hc Ht]. unfold stepping, totalSteps in *.
    unfold_handlers. simpl in Hev.
    destruct a; simpl; [|split; [lia | tauto]].
    destruct st as [s|e]; simpl; [|split; [lia | tauto]].
    rewrite Hev. simpl. split; [lia | tauto].
  - rewrite <- nextStep_alone.
    apply (script_serial stepping (fun _ _ => true)).
    + intros m' c Hm' _. apply stepping_sync, Hm'.
    + apply stepping_resume.
    + unfold nexts. simpl. lia.
    + apply guarded_any.
    + exact Hm.
  - apply (stepping_sync m CallPrev Hm).
  - exact Hm.
  - apply (stepping_sync m (CallVerify th) Hm).
  - apply (stepping_sync m (CallSetup th) Hm).
  - apply (stepping_sync m (CallValidate th) Hm).
  - destruct Hm as [Hc Ht]. unfold stepping, totalSteps in *.
    destruct (take t (timers m)) as [ts|] eqn:E; [|auto].
    destruct (take_sound _ _ _ E) as [Hin Hsub].
    assert (Hts : ~ In CompletionDelay ts) by (intros H; auto).
    destruct t.
    + unfold_handlers. destruct o, w; simpl; auto.
    + unfold_handlers. destruct o, w; simpl; auto.
    + simpl in Hev. rewrite E in Hev.
      unfold_handlers. destruct o, w; simpl; auto; discriminate.
    + contradiction.
  - apply (script_serial stepping (fun _ _ => true)).
    + intros m' c Hm' _. apply stepping_sync, Hm'.
    + apply stepping_resume.
    + simpl in Hs. apply Nat.leb_le in Hs. exact Hs.
    + apply guarded_any.
    + exact Hm.
Qed.

Lemma stepping_run (evs : list event) (m : Manager) :
  stepping m -> forallb serial evs = true -> completed m evs = false ->
  stepping (run m evs).
Proof.
  revert m. induction evs as [|ev evs IH]; intros m Hm Hs Hevs; simpl in *.
  - exact Hm.
  - apply andb_true_iff in Hs as [Hs Hss].
    apply orb_false_iff in Hevs as [Hev Hrest].
    apply IH; [apply stepping_step; assumption | exact Hss | exact Hrest].
Qed.

Lemma stepping_boot : stepping boot.
Proof. split; simpl; [unfold totalSteps; lia | tauto]. Qed.

(** C10, as the code has it.  A call of [nextStep] whose continuation
    follows before any other call either changes nothing or leaves
    the cursor at [totalSteps] or below; a script that makes at most
    one call of [nextStep], among any other calls, and that finds the
    cursor at [totalSteps] or below leaves it there; and a run from
    the first visit in which no two calls of [nextStep] overlap and
    that ends with the cursor on the completion position
    [totalSteps + 1] contains a validation that ran to its end or a
    reload that found passwordless already enabled. *)
Theorem completion_not_by_nextStep :
  (forall (w : bool) (m : Manager),
      nextStep w m = m \/ currentStep (nextStep w m) <= totalSteps) /\
  (forall (calls : list call) (m : Manager),
      (nexts calls <= 1)%nat ->
      currentStep m <= totalSteps ->
      currentStep (script calls m) <= totalSteps) /\
  (forall evs : list event,
      forallb serial evs = true ->
      currentStep (run boot evs) = totalSteps + 1 ->
      completed boot evs = true).
Proof.
  split; [|split].
  - intros w m.
    destruct (nextStep_cases w m) as [H|(Hlt & _ & H & _)]; [now left|].
    right. lia.
  - intros calls m Hn Hm.
    destruct (script_advance m calls Hn) as [Hle Hadv].
    destruct (Z_lt_le_dec (currentStep m) (currentStep (script calls m)))
      as [Hgt|Hng]; [|lia].
    destruct (Hadv Hgt) as [Hlt _]. lia.
  - intros evs Hs Hc.
    destruct (completed boot evs) eqn:E; [reflexivity|].
    destruct (stepping_run evs boot stepping_boot Hs E) as [Hle _]. lia.
Qed.

Lemma completion_not_by_nextStep_witness :
  forallb serial Scenario.orderly = true /\
  currentStep (run boot Scenario.orderly) = totalSteps + 1 /\
  completed boot Scenario.orderly = true /\
  currentStep (script [CallNext true; CallPrev] Scenario.verified)
  <= totalSteps.
Proof.
  split; [reflexivity|]. split; [reflexivity|]. split.
  - apply (proj2 (proj2 completion_not_by_nextStep)); reflexivity.
  - apply (proj1 (proj2 completion_not_by_nextStep)).
    + unfold nexts. simpl. lia.
    + vm_compute. discriminate.
Defined.

(** C10, as stated, fails when calls of [nextStep] overlap: with the
    two first steps done and the cursor on step 2, two calls in a row
    put the cursor on the completion position, without any validation
    and without the provider reporting passwordless. *)
Lemma overlapped_nextStep_completes :
  currentStep (run boot Scenario.rushed) = totalSteps + 1 /\
  completed boot Scenario.rushed = false /\
  step3 (userProgress (run boot Scenario.rushed)) = false.
Proof. vm_compute. repeat split. Qed.

(** *** Progress flags *)














(** The same from the screen of step 3, when two overlapped calls of
    [nextStep] have brought the cursor there past step 2. *)
Lemma overlapped_nextStep_skips_step2 :
  on_screen boot Scenario.skipping = true /\
  passwordlessEnabled (userProgress (run boot Scenario.skipping)) = true /\
  step2 (userProgress (run boot Scenario.skipping)) = false.
Proof. vm_compute. repeat split. Qed.


End WizardFacts.

(* ===================================================================== *)
(** ** Properties of the TAP manager *)
(* ===================================================================== *)

Section TapFacts.
Import Tap.

(** *** History *)

Lemma slice_last_length {A} (k : nat) (l : list A) :
  length (slice_last k l) = Nat.min k (length l).
Proof. unfold slice_last. rewrite length_skipn. lia. Qed.

Lemma slice_last_tail {A} (x : A) (l : list A) :
  slice_last (length l) (x :: l) = l.
Proof.
  unfold slice_last. simpl length.
  replace (S (length l) - length l)%nat with 1%nat by lia. reflexivity.
Qed.

Lemma addToHistory_history (w : bool) (tapData : TAP) (m : Manager) :
  tapHistory (addToHistory w tapData m) =
  (if (10 <=? length (tapHistory m))%nat
   then slice_last 9 (tapHistory m) else tapHistory m) ++ [tapData].
Proof.
  unfold addToHistory, saveHistory, setHistory.
  destruct (10 <=? length (tapHistory m))%nat, w; reflexivity.
Qed.

Lemma addToHistory_storage (w : bool) (tapData : TAP) (m : Manager) :
  storage (addToHistory w tapData m) = storage m \/
  storage (addToHistory w tapData m) =
    Some (tapHistory (addToHistory w tapData m)).
Proof.
  unfold addToHistory, saveHistory, setHistory.
  destruct (10 <=? length (tapHistory m))%nat, w; simpl; auto.
Qed.

Lemma addToHistory_bounded (w : bool) (tapData : TAP) (m : Manager) :
  (length (tapHistory (addToHistory w tapData m)) <= 10)%nat.
Proof.
  rewrite addToHistory_history.
  destruct (10 <=? length (tapHistory m))%nat eqn:E;
    rewrite length_app; simpl.
  - rewrite slice_last_length. lia.
  - apply Nat.leb_gt in E. lia.
Qed.

Lemma hideTAPDisplay_history (m : Manager) :
  tapHistory (hideTAPDisplay m) = tapHistory m /\
  storage (hideTAPDisplay m) = storage m.
Proof.
  unfold hideTAPDisplay.
  destruct (currentCountdownInterval m) as [h|]; [|split; reflexivity].
  destruct (negb (h =? 0)); split; reflexivity.
Qed.

Lemma updateCountdown_history (e : option Z) (t : Z) (m : Manager) :
  tapHistory (updateCountdown e t m) = tapHistory m /\
  storage (updateCountdown e t m) = storage m.
Proof.
  unfold updateCountdown. destruct (expired e t); [|split; reflexivity].
  apply hideTAPDisplay_history.
Qed.

Lemma startTAPCountdown_history (c : bool) (t : Z) (tapData : TAP)
    (m : Manager) :
  tapHistory (startTAPCountdown c t tapData m) = tapHistory m /\
  storage (startTAPCountdown c t tapData m) = storage m.
Proof.
  unfold startTAPCountdown. destruct c; simpl; [|split; reflexivity].
  apply updateCountdown_history.
Qed.

Lemma tick_history (h t : Z) (m : Manager) :
  tapHistory (tick h t m) = tapHistory m /\
  storage (tick h t m) = storage m.
Proof.
  unfold tick. destruct (intervals m !! h); [|split; reflexivity].
  apply updateCountdown_history.
Qed.

Lemma capped_step (m : Manager) (ev : event) :
  capped m -> capped (step m ev).
Proof.
  intros [Hh Hs]. unfold capped.
  destruct ev as [|config env|tapId env|h t]; simpl.
  - destruct (storage m) as [saved|] eqn:E; simpl.
    + split; [apply Hs; reflexivity|].
      intros h Hh'. inversion Hh'; subst. apply Hs; reflexivity.
    + split; [lia | discriminate].
  - assert (Hadd : (length (tapHistory m) <= 10)%nat ->
                    forall tapData,
                      (length (tapHistory
                                 (addToHistory (writable env) tapData
                                    (setCurrentTAP (Some tapData) m))) <= 10)%nat /\
                      forall h,
                        storage (addToHistory (writable env) tapData
                                   (setCurrentTAP (Some tapData) m)) = Some h ->
                        (length h <= 10)%nat).
    { intros _ tapData. split; [apply addToHistory_bounded|].
      intros h Hsave.
      destruct (addToHistory_storage (writable env) tapData
                  (setCurrentTAP (Some tapData) m)) as [E|E];
        rewrite E in Hsave.
      * apply Hs. exact Hsave.
      * inversion Hsave; subst. apply addToHistory_bounded. }
    unfold generateTAP. destruct (issue config env) as [tapData|e]; simpl;
      [|split; assumption].
    destruct (displayGeneratedTAP env) as [u|e]; simpl;
      [|exact (Hadd Hh tapData)].
    destruct (startTAPCountdown_history (countdownElement env) (now env)
                tapData
                (addToHistory (writable env) tapData
                   (setCurrentTAP (Some tapData) m))) as [-> ->].
    exact (Hadd Hh tapData).
  - unfold deleteTAP.
    destruct (deleteTAP_try tapId env m) as [m'|e] eqn:E; simpl;
      [|split; assumption].
    unfold deleteTAP_try in E.
    destruct (authManager env) as [am|]; [|discriminate].
    destruct (negb (isAuthenticated am)); [discriminate|].
    destruct (getAccessToken am) as [token|]; simpl in E; [|discriminate].
    destruct (delete env token tapId) as [response|]; simpl in E;
      [|discriminate].
    destruct (negb (ok response) && negb (status response =? 204));
      [discriminate|].
    inversion E; subst; clear E.
    assert (Hf : (length (List.filter
                           (fun tap => negb (String.eqb (id tap) tapId))
                           (tapHistory m)) <= 10)%nat).
    { etransitivity; [apply List.filter_length_le | exact Hh]. }
    unfold saveHistory, setHistory. destruct (writable env); simpl.
    * split; [exact Hf|]. intros h Hsave. inversion Hsave; subst. exact Hf.
    * split; [exact Hf | exact Hs].
  - destruct (tick_history h t m) as [-> ->]. split; assumption.
Qed.

Lemma capped_run (evs : list event) (m : Manager) :
  capped m -> capped (run m evs).
Proof.
  revert m. induction evs as [|ev evs IH]; intros m Hm; simpl.
  - exact Hm.
  - apply IH, capped_step, Hm.
Qed.

Lemma capped_boot : capped boot.
Proof. split; simpl; [lia | discriminate]. Qed.

(** C2.  In every state the TAP page reaches from the first visit
    the history holds at most ten entries; and on a history of ten
    entries [addToHistory] drops the first (oldest) entry, keeps the
    other nine in their order and puts the new entry last, which
    again makes ten. *)
Theorem tapHistory_capped_oldest_evicted :
  (forall evs : list event,
      (length (tapHistory (run boot evs)) <= 10)%nat) /\
  (forall (w : bool) (tapData : TAP) (m : Manager),
      length (tapHistory m) = 10%nat ->
      exists oldest recent,
        tapHistory m = oldest :: recent /\
        tapHistory (addToHistory w tapData m) = recent ++ [tapData] /\
        length (tapHistory (addToHistory w tapData m)) = 10%nat).
Proof.
  split.
  - intros evs. exact (proj1 (capped_run evs boot capped_boot)).
  - intros w tapData m Hlen.
    destruct (tapHistory m) as [|oldest recent] eqn:E; [discriminate|].
    exists oldest, recent. split; [reflexivity|].
    assert (Hr : length recent = 9%nat) by (simpl in Hlen; lia).
    rewrite addToHistory_history, E.
    simpl length. rewrite Hr. simpl Nat.leb. cbv iota.
    split.
    + rewrite <- Hr. rewrite slice_last_tail. reflexivity.
    + rewrite length_app, slice_last_length. simpl length. lia.
Qed.

Lemma tapHistory_capped_oldest_evicted_witness :
  length (tapHistory Scenario.tenPasses) = 10%nat /\
  tapHistory (addToHistory true (Scenario.pass 11) Scenario.tenPasses) =
  map Scenario.pass [2; 3; 4; 5; 6; 7; 8; 9; 10; 11].
Proof.
  split; [reflexivity|].
  destruct (proj2 tapHistory_capped_oldest_evicted true (Scenario.pass 11)
              Scenario.tenPasses eq_refl) as (oldest & recent & E & H & _).
  rewrite H. inversion E. reflexivity.
Defined.

(** *** Configuration *)

Lemma tapConfig_lookup (config : gmap string JsVal) (k : string) :
  tapConfig config !! k =
  match config !! k with
  | Some v => Some v
  | None =>
      (<["lifetimeInMinutes" :=
           or (get config "lifetimeInMinutes") (JNum 60)]>
       (<["isUsableOnce" :=
           or (get config "isUsableOnce") (JBool false)]> ∅)
       : gmap string JsVal) !! k
  end.
Proof.
  unfold tapConfig. rewrite lookup_union.
  destruct (config !! k) as [v|]; simpl.
  - now destruct (_ !! k).
  - now destruct (_ !! k).
Qed.

Lemma requestBody_sent (config : gmap string JsVal) :
  requestBody config =
  {| request_odata_type :=
       "#microsoft.graph.temporaryAccessPassAuthenticationMethod";
     request_lifetimeInMinutes :=
       match config !! "lifetimeInMinutes" with
       | Some v => v
       | None => JNum 60
       end;
     request_isUsableOnce :=
       match config !! "isUsableOnce" with
       | Some v => v
       | None => JBool false
       end |}.
Proof.
  unfold requestBody. f_equal.
  - unfold get at 1. rewrite tapConfig_lookup.
    destruct (config !! "lifetimeInMinutes") as [v|] eqn:E; [reflexivity|].
    rewrite lookup_insert_eq. unfold get. rewrite E. reflexivity.
  - unfold get at 1. rewrite tapConfig_lookup.
    destruct (config !! "isUsableOnce") as [v|] eqn:E; [reflexivity|].
    rewrite lookup_insert_ne by discriminate.
    rewrite lookup_insert_eq. unfold get. rewrite E. reflexivity.
Qed.

(** C5.  With a session and a token, the creation call of
    [generateTAP] is made with the body [sent], which carries, for
    each of the two settings, the value of the configuration when the
    configuration has the property (whatever the value: 0 and false
    included) and the default 60, respectively false, when it has
    not: when the graph rejects that request, [generateTAP] throws
    the error of the rejection; and what [generateTAP] does depends
    on the graph only through its answer to that request. *)
Theorem generateTAP_config_over_defaults
    (config : gmap string JsVal) (env : Env) (m : Manager)
    (am : AuthManager) (token : string) :
  authManager env = Some am ->
  isAuthenticated am = true ->
  getAccessToken am = Return token ->
  let sent :=
    {| request_odata_type :=
         "#microsoft.graph.temporaryAccessPassAuthenticationMethod";
       request_lifetimeInMinutes :=
         match config !! "lifetimeInMinutes" with
         | Some v => v
         | None => JNum 60
         end;
       request_isUsableOnce :=
         match config !! "isUsableOnce" with
         | Some v => v
         | None => JBool false
         end |} in
  (forall e,
      post env token sent = Throw e ->
      generateTAP config env m = (Throw e, m)) /\
  (forall post',
      post' token sent = post env token sent ->
      generateTAP config
        (mkEnv (authManager env) post' (delete env) (now env)
           (writable env) (countdownElement env) (displayGeneratedTAP env))
        m
      = generateTAP config env m).
Proof.
  intros Ham Hauth Htok sent. split.
  - intros e Hpost. unfold generateTAP, issue.
    rewrite Ham, Hauth, Htok. simpl.
    rewrite requestBody_sent. fold sent. rewrite Hpost. reflexivity.
  - intros post' Hpost. unfold generateTAP, issue. simpl.
    rewrite Ham, Hauth, Htok. simpl.
    rewrite requestBody_sent. fold sent. rewrite Hpost. reflexivity.
Qed.

Lemma generateTAP_config_over_defaults_witness :
  generateTAP {[ "lifetimeInMinutes" := JNum 0 ]} Scenario.picky boot
  = (Throw (Error "lifetime 0, reusable"), boot).
Proof.
  apply (generateTAP_config_over_defaults
           {[ "lifetimeInMinutes" := JNum 0 ]} Scenario.picky boot
           Scenario.user "token" eq_refl eq_refl eq_refl).
  reflexivity.
Defined.

(** *** Issuing a pass *)

(** C3.  With a session and a token, when the creation call is
    answered with a non-success status and an error document that
    carries a (non-empty) message, [generateTAP] throws an error
    whose message is that message behind the prefix of the graph
    errors, and the manager — current TAP, history and all — is as
    before. *)
Theorem generateTAP_remote_error
    (config : gmap string JsVal) (env : Env) (m : Manager)
    (am : AuthManager) (token msg : string)
    (response : Response PostBody) :
  authManager env = Some am ->
  isAuthenticated am = true ->
  getAccessToken am = Return token ->
  post env token (requestBody config) = Return response ->
  ok response = false ->
  json response =
    Return (ErrorShape (mkErrorData (Some (mkDetail (Some msg))))) ->
  msg <> "" ->
  generateTAP config env m =
    (Throw (Error ("Error Graph API: " +:+ msg)), m) /\
  currentTAP (snd (generateTAP config env m)) = currentTAP m /\
  tapHistory (snd (generateTAP config env m)) = tapHistory m.
Proof.
  intros Ham Hauth Htok Hpost Hok Hjson Hmsg.
  assert (E : generateTAP config env m =
              (Throw (Error ("Error Graph API: " +:+ msg)), m)).
  { unfold generateTAP, issue.
    rewrite Ham, Hauth, Htok. simpl. rewrite Hpost. simpl.
    rewrite Hok, Hjson. simpl.
    destruct (String.eqb msg "") eqn:Em; [|reflexivity].
    apply String.eqb_eq in Em. contradiction. }
  rewrite E. auto.
Qed.

Lemma generateTAP_remote_error_witness :
  generateTAP ∅ (Scenario.refusing "quota exceeded") Scenario.onePass =
    (Throw (Error "Error Graph API: quota exceeded"), Scenario.onePass).
Proof.
  apply (generateTAP_remote_error ∅ (Scenario.refusing "quota exceeded")
           Scenario.onePass Scenario.user "token" "quota exceeded"
           (mkResponse false 400 "Bad Request"
              (Return (ErrorShape
                         (mkErrorData
                            (Some (mkDetail (Some "quota exceeded"))))))));
    try reflexivity.
  discriminate.
Defined.

Lemma makeTapData_expiry (am : AuthManager) (b : PostBody) (tap : TAP) :
  makeTapData am b = Return tap ->
  exists created expires,
    createdDateTime tap = Some created /\
    expiresDateTime tap = Some expires /\
    expires = created + lifetimeInMinutes tap * 60000.
Proof.
  unfold makeTapData. destruct b as [d|result]; [discriminate|].
  destruct (result_createdDateTime result) as [c|]; simpl;
    [|discriminate].
  destruct (Z.abs (c + result_lifetimeInMinutes result * 60000) <=? maxTime);
    simpl; [|discriminate].
  intros H. inversion H; subst; simpl. eauto.
Qed.

Lemma issue_makeTapData (config : gmap string JsVal) (env : Env)
    (tap : TAP) :
  issue config env = Return tap ->
  exists am b, makeTapData am b = Return tap.
Proof.
  unfold issue.
  destruct (authManager env) as [am|]; [|discriminate].
  destruct (negb (isAuthenticated am)); [discriminate|].
  destruct (getAccessToken am) as [token|]; simpl; [|discriminate].
  destruct (post env token (requestBody config)) as [response|]; simpl;
    [|discriminate].
  destruct (negb (ok response)).
  - destruct (json response); simpl; discriminate.
  - destruct (json response) as [b|]; simpl; [|discriminate].
    intros H. eauto.
Qed.

(** C6.  The pass that a successful [generateTAP] returns has a
    creation time and an expiry time, and the expiry time is the
    creation time plus [lifetimeInMinutes * 60] seconds (times are
    in milliseconds). *)
Theorem generateTAP_expiry
    (config : gmap string JsVal) (env : Env) (m m' : Manager)
    (tap : TAP) :
  generateTAP config env m = (Return tap, m') ->
  exists created expires,
    createdDateTime tap = Some created /\
    expiresDateTime tap = Some expires /\
    expires = created + (lifetimeInMinutes tap * 60) * 1000.
Proof.
  unfold generateTAP. destruct (issue config env) as [t|e] eqn:E;
    [|intros H; inversion H].
  destruct (displayGeneratedTAP env); intros H; inversion H; subst.
  destruct (issue_makeTapData _ _ _ E) as (am & b & Hb).
  destruct (makeTapData_expiry _ _ _ Hb) as (c & x & Hc & Hx & Heq).
  exists c, x. repeat split; auto. lia.
Qed.

Lemma generateTAP_expiry_witness :
  exists tap,
    fst (generateTAP ∅ (Scenario.creating Scenario.longPass 30000)
           Scenario.onePass) = Return tap /\
    createdDateTime tap = Some 30000 /\
    expiresDateTime tap = Some (30000 + (60 * 60) * 1000).
Proof.
  destruct (generateTAP ∅ (Scenario.creating Scenario.longPass 30000)
              Scenario.onePass) as [[tap|e] m'] eqn:E.
  - exists tap. split; [reflexivity|].
    destruct (generateTAP_expiry _ _ _ _ _ E) as (c & x & Hc & Hx & Heq).
    vm_compute in E. inversion E; subst tap. simpl in *.
    inversion Hc; subst c. split; [reflexivity|].
    rewrite Hx, Heq. reflexivity.
  - vm_compute in E. discriminate E.
Defined.

(** *** Deleting a pass *)

Lemma filter_other_ids (tapId : string) (h : list TAP) :
  (forall tap, In tap h -> id tap <> tapId) ->
  List.filter (fun tap => negb (String.eqb (id tap) tapId)) h = h.
Proof.
  induction h as [|x h IH]; intros H; simpl; [reflexivity|].
  destruct (String.eqb (id x) tapId) eqn:E; simpl.
  - apply String.eqb_eq in E. exfalso. apply (H x); [now left | exact E].
  - f_equal. apply IH. intros tap Hin. apply H. now right.
Qed.

(** C4, as the code has it.  For an id that no entry of the local
    history carries, [deleteTAP] leaves the history as it is and
    returns a boolean, never an exception; the boolean is that of the
    remote call: true exactly when there is a session, a token, and
    the graph answers the delete with a success status. *)
Theorem deleteTAP_unknown_id (tapId : string) (env : Env) (m : Manager) :
  (forall tap, In tap (tapHistory m) -> id tap <> tapId) ->
  tapHistory (snd (deleteTAP tapId env m)) = tapHistory m /\
  exists b : bool,
    fst (deleteTAP tapId env m) = Return b /\
    (b = true <->
     exists am token response,
       authManager env = Some am /\
       isAuthenticated am = true /\
       getAccessToken am = Return token /\
       delete env token tapId = Return response /\
       (ok response = true \/ status response = 204)).
Proof.
  intros Hid. unfold deleteTAP, deleteTAP_try.
  rewrite (filter_other_ids tapId (tapHistory m) Hid).
  destruct (authManager env) as [am|] eqn:Ham; simpl.
  2: { split; [reflexivity|]. exists false. split; [reflexivity|].
       split; [discriminate|]. intros (? & ? & ? & ? & _). discriminate. }
  destruct (isAuthenticated am) eqn:Hauth; simpl.
  2: { split; [reflexivity|]. exists false. split; [reflexivity|].
       split; [discriminate|].
       intros (am' & ? & ? & E & Ha & _). congruence. }
  destruct (getAccessToken am) as [token|e] eqn:Htok; simpl.
  2: { split; [reflexivity|]. exists false. split; [reflexivity|].
       split; [discriminate|].
       intros (am' & ? & ? & E & _ & Ht & _). congruence. }
  destruct (delete env token tapId) as [response|e] eqn:Hdel; simpl.
  2: { split; [reflexivity|]. exists false. split; [reflexivity|].
       split; [discriminate|].
       intros (am' & t' & ? & E & _ & Ht & Hd & _).
       assert (am' = am) by congruence; subst am'.
       assert (t' = token) by congruence; subst t'. congruence. }
  destruct (negb (ok response) && negb (status response =? 204)) eqn:Hst;
    simpl.
  - split; [reflexivity|]. exists false. split; [reflexivity|].
    split; [discriminate|].
    intros (am' & t' & r' & E & _ & Ht & Hd & Hok).
    assert (am' = am) by congruence; subst am'.
    assert (t' = token) by congruence; subst t'.
    assert (r' = response) by congruence; subst r'.
    apply andb_true_iff in Hst as [H1 H2].
    apply negb_true_iff in H1, H2. apply Z.eqb_neq in H2.
    destruct Hok; congruence.
  - split.
    + unfold saveHistory, setHistory. destruct (writable env); reflexivity.
    + exists true. split; [reflexivity|]. split; [|reflexivity].
      intros _. exists am, token, response.
      split; [reflexivity|]. repeat (split; [assumption|]).
      apply andb_false_iff in Hst as [H|H]; apply negb_false_iff in H.
      * now left.
      * right. now apply Z.eqb_eq.
Qed.

(** C4, as stated, fails: the graph accepts the delete of a pass
    that the local history does not list, and [deleteTAP] returns
    true. *)
Lemma deleteTAP_unknown_id_succeeds :
  (forall tap, In tap (tapHistory Scenario.onePass) -> id tap <> "tap-9") /\
  fst (deleteTAP "tap-9" (Scenario.creating Scenario.longPass 0)
         Scenario.onePass) = Return true.
Proof.
  split; [|reflexivity].
  intros tap [<-|[]]. discriminate.
Qed.

Lemma deleteTAP_unknown_id_witness :
  tapHistory
    (snd (deleteTAP "tap-9" (Scenario.refusing "gone") Scenario.onePass)) =
  tapHistory Scenario.onePass /\
  fst (deleteTAP "tap-9" (Scenario.refusing "gone") Scenario.onePass) =
  Return false.
Proof.
  split; [|reflexivity].
  apply (deleteTAP_unknown_id "tap-9" (Scenario.refusing "gone")
           Scenario.onePass).
  intros tap [<-|[]]. discriminate.
Defined.

(** *** Countdown *)

(** The interval that the manager holds as its current countdown
    does what the spec says of the ticker: on computing a remaining
    time of zero or below it is cancelled, the current TAP is
    dropped and the history is left alone. *)
Lemma tick_expired_current (h t : Z) (e : option Z) (m : Manager) :
  currentCountdownInterval m = Some h ->
  h <> 0 ->
  intervals m !! h = Some e ->
  expired e t = true ->
  intervals (tick h t m) !! h = None /\
  currentCountdownInterval (tick h t m) = None /\
  currentTAP (tick h t m) = None /\
  tapHistory (tick h t m) = tapHistory m.
Proof.
  intros Hc Hh Hi He.
  unfold tick, updateCountdown, hideTAPDisplay.
  rewrite Hi, He, Hc.
  apply Z.eqb_neq in Hh. rewrite Hh. simpl.
  split; [apply lookup_delete_eq|]. auto.
Qed.

(** The scenario of the spec: one pass of one minute, a tick 61
    seconds after its creation. *)
Example single_pass_expires :
  let m := tick 1 61000 Scenario.onePass in
  intervals m = ∅ /\
  currentTAP m = None /\
  tapHistory m = tapHistory Scenario.onePass /\
  map isUsableOnce (tapHistory m) = [true] /\
  map createdDateTime (tapHistory m) = [Some 0] /\
  map expiresDateTime (tapHistory m) = [Some 60000].
Proof. vm_compute. repeat split. Qed.

(** C8 fails on the code when a second pass is generated while the
    first is counting down: [startTAPCountdown] overwrites the
    handle of the first interval without cancelling it.  When the
    first interval then computes a remaining time of zero, it
    cancels the interval of the second pass, hides that pass (which
    has not expired) and stays registered itself, so that it fires
    again every second. *)
Theorem orphaned_countdown_never_stops :
  currentCountdownInterval Scenario.twoPasses = Some 2 /\
  intervals Scenario.twoPasses !! 1 = Some (Some 60000) /\
  intervals Scenario.twoPasses !! 2 = Some (Some 3630000) /\
  option_map id (currentTAP Scenario.twoPasses) = Some "tap-2" /\
  expired (Some 60000) 60000 = true /\
  expired (Some 3630000) 60000 = false /\
  intervals (tick 1 60000 Scenario.twoPasses) !! 1 = Some (Some 60000) /\
  intervals (tick 1 60000 Scenario.twoPasses) !! 2 = None /\
  currentTAP (tick 1 60000 Scenario.twoPasses) = None /\
  intervals (tick 1 61000 (tick 1 60000 Scenario.twoPasses)) !! 1
    = Some (Some 60000).
Proof. vm_compute. repeat split. Qed.

End TapFacts.

(* ===================================================================== *)
(** ** Properties of the passwordless status query *)
(* ===================================================================== *)

Section AuthFacts.
Import Auth.

Lemma filter_none (l : list Method) :
  (forall x, In x l -> isPasswordless x = false) ->
  List.filter isPasswordless l = [].
Proof.
  induction l as [|x l IH]; intros H; simpl; [reflexivity|].
  rewrite (H x) by now left. apply IH. intros y Hy. apply H. now right.
Qed.

(** C9.  Whatever fails in fetching the methods of the account —
    the token, the request, a non-success status, the parsing of the
    body or a body without a list — [checkPasswordlessStatus]
    returns [hasPasswordless = false] with empty [methods] and
    [allMethods].  And when the listing has one entry whose type is
    among the three passwordless types (Windows Hello for one),
    whatever the other entries, it returns [hasPasswordless = true]
    with [methods] holding that entry alone. *)
Theorem checkPasswordlessStatus_fail_open (r : Remote MethodsBody) :
  ((exists e, getAccessToken r = Throw e) \/
   (exists token, getAccessToken r = Return token /\
      ((exists e, fetch r token = Throw e) \/
       (exists response, fetch r token = Return response /\
          (ok response = false \/
           (exists e, json response = Throw e) \/
           json response = Return (mkMethodsBody None))))) ->
   hasPasswordless (checkPasswordlessStatus r) = false /\
   methods (checkPasswordlessStatus r) = [] /\
   allMethods (checkPasswordlessStatus r) = []) /\
  (forall token response before m after,
      getAccessToken r = Return token ->
      fetch r token = Return response ->
      ok response = true ->
      json response = Return (mkMethodsBody (Some (before ++ m :: after))) ->
      isPasswordless m = true ->
      (forall x, In x before -> isPasswordless x = false) ->
      (forall x, In x after -> isPasswordless x = false) ->
      hasPasswordless (checkPasswordlessStatus r) = true /\
      methods (checkPasswordlessStatus r) = [m] /\
      allMethods (checkPasswordlessStatus r) = before ++ m :: after) /\
  isPasswordless (mkMethod windowsHello "hello-1") = true.
Proof.
  split; [|split; [|reflexivity]].
  - unfold checkPasswordlessStatus, checkPasswordlessStatus_try.
    intros [[e He]|(token & Htok & [[e He]|(response & Hf & Hr)])].
    + rewrite He. simpl. auto.
    + rewrite Htok. simpl. rewrite He. simpl. auto.
    + rewrite Htok. simpl. rewrite Hf. simpl.
      destruct (ok response) eqn:Hok; simpl; [|auto].
      destruct Hr as [Hr|[[e He]|Hr]]; [discriminate| |].
      * rewrite He. simpl. auto.
      * rewrite Hr. simpl. auto.
  - intros token response before m after Htok Hf Hok Hj Hm Hb Ha.
    unfold checkPasswordlessStatus, checkPasswordlessStatus_try.
    rewrite Htok. simpl. rewrite Hf. simpl. rewrite Hok, Hj. simpl.
    rewrite List.filter_app. simpl. rewrite Hm.
    rewrite (filter_none before Hb), (filter_none after Ha). simpl. auto.
Qed.

Lemma checkPasswordlessStatus_fail_open_witness :
  (hasPasswordless (checkPasswordlessStatus Scenario.outOfService) = false /\
   methods (checkPasswordlessStatus Scenario.outOfService) = [] /\
   allMethods (checkPasswordlessStatus Scenario.outOfService) = []) /\
  (hasPasswordless
     (checkPasswordlessStatus
        (Scenario.listing [Scenario.password; Scenario.hello])) = true /\
   methods
     (checkPasswordlessStatus
        (Scenario.listing [Scenario.password; Scenario.hello]))
   = [Scenario.hello] /\
   allMethods
     (checkPasswordlessStatus
        (Scenario.listing [Scenario.password; Scenario.hello]))
   = [Scenario.password; Scenario.hello]).
Proof.
  split.
  - apply (proj1 (checkPasswordlessStatus_fail_open Scenario.outOfService)).
    right. exists "token". split; [reflexivity|].
    right. eexists. split; [reflexivity|]. left. reflexivity.
  - apply (proj1 (proj2 (checkPasswordlessStatus_fail_open
                           (Scenario.listing
                              [Scenario.password; Scenario.hello])))
             "token"
             (mkResponse true 200 "OK"
                (Return (mkMethodsBody
                           (Some [Scenario.password; Scenario.hello]))))
             [Scenario.password] Scenario.hello []);
      try reflexivity.
    + intros x [<-|[]]. reflexivity.
    + intros x [].
Defined.

End AuthFacts.

(* ===================================================================== *)
(** ** Further properties of the wizard *)
(* ===================================================================== *)

Section WizardMore.
Import Wizard WizardView.

Ltac unfold_wizard :=
  unfold runTask, verifyRequirements_start, verifyRequirements_resume,
    setupAuthenticationMethods_start, setupAuthenticationMethods_resume,
    validateSetup_start, validateSetup_resume, completion,
    initializeApp, loadUserProgress, constructor, loadProgress,
    nextStep_resume, saveProgress, setTimeout, setProgress, setStep,
    setTimers in *.

Lemma run_snoc (m : Manager) (evs : list event) (ev : event) :
  run m (evs ++ [ev]) = step (run m evs) ev.
Proof. unfold run. rewrite fold_left_app. reflexivity. Qed.

(** *** Flags are only cleared by a page load *)








(** *** The cursor and the completion screen *)

Lemma earned_sync (m : Manager) (c : call) :
  earned m -> earned (callSync c m).
Proof.
  intros [He Hc]. unfold earned, totalSteps in *.
  destruct c as [w| | |th|th|th]; simpl; try (split; assumption).
  - destruct (prevStep_cases m) as [[-> _]|[H1 ->]]; simpl;
      [split; assumption|].
    split; [|lia]. intros [H|H]; [apply He; left; lia | auto].
  - unfold_wizard. destruct th; simpl; (split; [|lia]); auto.
    intros [H|H]; [auto|]. apply In_snoc in H as [H|H]; [auto | discriminate].
  - unfold_wizard. destruct th; simpl; (split; [|lia]); auto.
    intros [H|H]; [auto|]. apply In_snoc in H as [H|H]; [auto | discriminate].
  - unfold_wizard. destruct th; simpl; (split; [|lia]); auto.
    intros [H|H]; [auto|]. apply In_snoc in H as [H|H]; [auto | discriminate].
Qed.

Lemma earned_resume (m1 m2 : Manager) (w : bool) :
  earned m1 -> earned m2 -> later m1 m2 ->
  nextStep_start m1 = Some true ->
  earned (nextStep_resume true w m2).
Proof.
  intros _ [He Hc] [Hl _] Hs.
  apply nextStep_start_Some in Hs as [Hlt _].
  unfold earned, totalSteps in *. unfold_wizard.
  destruct w; simpl; (split; [|lia]); intros [H|H]; auto; lia.
Qed.

Lemma earned_step (m : Manager) (ev : event) :
  earned m -> serial ev = true -> earned (step m ev).
Proof.
  intros Hm Hserial.
  destruct ev as [r a st|w| | |th|th|th|t o w|calls]; simpl.
  - destruct Hm as [He Hc]. unfold earned, totalSteps in *. unfold_wizard.
    destruct a; [destruct st as [s|e]; [destruct (Auth.hasPasswordless s)|]|];
      simpl; (split; [|lia]); intros [H|H]; auto; try lia; contradiction.
  - rewrite <- nextStep_alone.
    apply (script_serial earned (fun _ _ => true)).
    + intros m' c Hm' _. apply earned_sync, Hm'.
    + apply earned_resume.
    + unfold nexts. simpl. lia.
    + apply guarded_any.
    + exact Hm.
  - apply (earned_sync m CallPrev Hm).
  - exact Hm.
  - apply (earned_sync m (CallVerify th) Hm).
  - apply (earned_sync m (CallSetup th) Hm).
  - apply (earned_sync m (CallValidate th) Hm).
  - destruct Hm as [He Hc]. unfold earned, totalSteps in *.
    destruct (take t (timers m)) as [ts|] eqn:E; [|split; assumption].
    destruct (take_sound _ _ _ E) as [Hin Hsub].
    pose proof (fun H => He (or_intror (Hsub CompletionDelay H))) as He'.
    pose proof (fun H => He (or_introl H)) as He''.
    destruct t; unfold_wizard; unfold totalSteps.
    + destruct o, w; simpl; (split; [|lia]); intros [H|H]; auto.
    + destruct o, w; simpl; (split; [|lia]); intros [H|H]; auto.
    + destruct o, w; simpl; (split; [|lia]); intros [H|H]; auto.
    + simpl. split; [|lia]. intros _. apply He. right. exact Hin.
  - simpl in Hserial. apply Nat.leb_le in Hserial.
    apply (script_serial earned (fun _ _ => true)).
    + intros m' c Hm' _. apply earned_sync, Hm'.
    + apply earned_resume.
    + exact Hserial.
    + apply guarded_any.
    + exact Hm.
Qed.

Lemma earned_run (evs : list event) (m : Manager) :
  earned m -> forallb serial evs = true -> earned (run m evs).
Proof.
  revert m. induction evs as [|ev evs IH]; intros m Hm Hs; simpl in *.
  - exact Hm.
  - apply andb_true_iff in Hs as [Hs Hss].
    apply IH; [apply earned_step; assumption | exact Hss].
Qed.

Lemma earned_boot : earned boot.
Proof.
  split; simpl; [|unfold totalSteps; lia].
  unfold totalSteps. intros [H|H]; [lia | contradiction].
Qed.

Lemma positive_sync (m : Manager) (c : call) :
  1 <= currentStep m -> 1 <= currentStep (callSync c m).
Proof.
  intros H. destruct c as [w| | |th|th|th]; simpl; try exact H.
  - destruct (prevStep_cases m) as [[-> _]|[H1 ->]]; simpl; lia.
  - unfold_wizard. destruct th; exact H.
  - unfold_wizard. destruct th; exact H.
  - unfold_wizard. destruct th; exact H.
Qed.

Lemma positive_resume (m : Manager) (v w : bool) :
  1 <= currentStep m -> 1 <= currentStep (nextStep_resume v w m).
Proof. intros H. unfold_wizard. destruct v, w; simpl; lia. Qed.

Lemma positive_step (m : Manager) (ev : event) :
  1 <= currentStep m -> 1 <= currentStep (step m ev).
Proof.
  intros Hm.
  destruct ev as [r a st|w| | |th|th|th|t o w|calls]; simpl.
  - unfold_wizard.
    destruct a; [destruct st as [s|e]; [destruct (Auth.hasPasswordless s)|]|];
      simpl; lia.
  - unfold nextStep. destruct (nextStep_start m); [|exact Hm].
    apply positive_resume, Hm.
  - apply (positive_sync m CallPrev Hm).
  - exact Hm.
  - apply (positive_sync m (CallVerify th) Hm).
  - apply (positive_sync m (CallSetup th) Hm).
  - apply (positive_sync m (CallValidate th) Hm).
  - destruct (take t (timers m)) as [ts|]; [|exact Hm].
    destruct t, o, w; unfold_wizard; unfold totalSteps; simpl; lia.
  - apply (script_any (fun m' => 1 <= currentStep m') (fun _ _ => true)).
    + intros m' c Hm' _. apply positive_sync, Hm'.
    + intros m' v w Hm'. apply positive_resume, Hm'.
    + apply guarded_any.
    + exact Hm.
Qed.

(** In every state the wizard reaches from the first visit the cursor
    is 1 or above; and it is [totalSteps + 1] or below as long as no
    two calls of [nextStep] overlap. *)
Theorem cursor_in_range (evs : list event) :
  1 <= currentStep (run boot evs) /\
  (forallb serial evs = true ->
   currentStep (run boot evs) <= totalSteps + 1).
Proof.
  split.
  - assert (G : forall m, 1 <= currentStep m -> 1 <= currentStep (run m evs)).
    { induction evs as [|ev evs IH]; intros m Hm; [exact Hm|].
      simpl. apply IH, positive_step, Hm. }
    apply G. simpl. lia.
  - intros Hs. destruct (earned_run evs boot earned_boot Hs) as [_ Hc]. lia.
Qed.

Lemma cursor_in_range_witness :
  forallb serial Scenario.orderly = true /\
  currentStep (run boot Scenario.orderly) <= totalSteps + 1.
Proof.
  split; [reflexivity|].
  apply (proj2 (cursor_in_range Scenario.orderly)). reflexivity.
Defined.



(** *** Reloading *)

Lemma persisted_resume (m : Manager) (v w : bool) :
  persisted m -> persisted (nextStep_resume v w m).
Proof.
  unfold persisted. intros H. unfold_wizard. destruct v, w; simpl; auto.
Qed.

Lemma persisted_sync (m : Manager) (c : call) :
  persisted m -> persisted (callSync c m).
Proof.
  unfold persisted. intros Hm.
  destruct c as [w| | |th|th|th]; simpl; try exact Hm.
  - destruct (prevStep_cases m) as [[-> _]|[_ ->]]; exact Hm.
  - unfold_wizard. destruct th; exact Hm.
  - unfold_wizard. destruct th; exact Hm.
  - unfold_wizard. destruct th; exact Hm.
Qed.

Lemma persisted_step (m : Manager) (ev : event) :
  persisted m -> durable ev = true -> persisted (step m ev).
Proof.
  intros Hm Hev.
  destruct ev as [r a st|w| | |th|th|th|t o w|calls]; simpl in *.
  - unfold persisted in *. apply andb_true_iff in Hev as [-> Hst].
    unfold_wizard. destruct a; simpl in *; [|reflexivity].
    destruct st as [s|e]; [|discriminate].
    apply negb_true_iff in Hst. rewrite Hst. reflexivity.
  - unfold nextStep. destruct (nextStep_start m); [|exact Hm].
    apply persisted_resume, Hm.
  - apply (persisted_sync m CallPrev Hm).
  - exact Hm.
  - apply (persisted_sync m (CallVerify th) Hm).
  - apply (persisted_sync m (CallSetup th) Hm).
  - apply (persisted_sync m (CallValidate th) Hm).
  - unfold persisted in *.
    subst w. destruct (take t (timers m)) as [ts|]; [|exact Hm].
    destruct t, o; unfold_wizard; simpl; auto.
  - apply (script_any persisted (fun _ _ => true)).
    + intros m' c Hm' _. apply persisted_sync, Hm'.
    + intros m' v w Hm'. apply persisted_resume, Hm'.
    + apply guarded_any.
    + exact Hm.
Qed.

Lemma persisted_run (evs : list event) (m : Manager) :
  persisted m -> forallb durable evs = true -> persisted (run m evs).
Proof.
  revert m. induction evs as [|ev evs IH]; intros m Hm Hevs; simpl in *.
  - exact Hm.
  - apply andb_true_iff in Hevs as [Hev Hrest].
    apply IH; [apply persisted_step; assumption | exact Hrest].
Qed.

(** As long as localStorage works and the status query answers
    without passwordless methods, a reload gives back the progress
    record as it was, but not the position: the cursor is on step 1
    again and the timeouts that were pending are gone. *)
Theorem reload_resumes_flags (evs : list event) (isAuthenticated : bool)
    (s : Auth.PasswordlessStatus) :
  forallb durable evs = true ->
  Auth.hasPasswordless s = false ->
  userProgress (step (run boot evs) (Reload true isAuthenticated (Return s)))
    = userProgress (run boot evs) /\
  currentStep (step (run boot evs) (Reload true isAuthenticated (Return s)))
    = 1 /\
  timers (step (run boot evs) (Reload true isAuthenticated (Return s))) = [].
Proof.
  intros Hevs Hs.
  assert (Hp : persisted (run boot evs))
    by (apply persisted_run; [reflexivity | exact Hevs]).
  unfold persisted in Hp. simpl. unfold_wizard.
  destruct isAuthenticated; simpl; rewrite ?Hs; simpl; auto.
Qed.

Lemma reload_resumes_flags_witness :
  forallb durable Scenario.orderly = true /\
  currentStep (run boot Scenario.orderly) = 4 /\
  userProgress
    (step (run boot Scenario.orderly)
       (Reload true true
          (Return (Auth.checkPasswordlessStatus
                     (Scenario.listing [Scenario.password])))))
  = userProgress (run boot Scenario.orderly) /\
  currentStep
    (step (run boot Scenario.orderly)
       (Reload true true
          (Return (Auth.checkPasswordlessStatus
                     (Scenario.listing [Scenario.password]))))) = 1.
Proof.
  split; [reflexivity|]. split; [reflexivity|].
  destruct (reload_resumes_flags Scenario.orderly true
              (Auth.checkPasswordlessStatus
                 (Scenario.listing [Scenario.password]))
              eq_refl eq_refl) as (Hp & Hc & _).
  split; [exact Hp | exact Hc].
Defined.

(** The status query feeding the page load.  When the listing of the
    account holds a passwordless method, the wizard opens on the
    completion position with every flag set and the passwordless
    methods of the listing, and localStorage is left as it was; when
    the query fails in any way, the wizard opens on step 1 with the
    saved progress. *)
Theorem load_with_status (m : Manager) (r : Auth.Remote Auth.MethodsBody) :
  (forall token response l,
      Auth.getAccessToken r = Return token ->
      Auth.fetch r token = Return response ->
      ok response = true ->
      json response = Return (Auth.mkMethodsBody (Some l)) ->
      existsb Auth.isPasswordless l = true ->
      step m (Reload true true (Return (Auth.checkPasswordlessStatus r))) =
      {| currentStep := totalSteps + 1;
         userProgress :=
           {| step1 := true; step2 := true; step3 := true;
              passwordlessEnabled := true;
              methods := List.filter Auth.isPasswordless l |};
         storage := storage m;
         timers := [] |}) /\
  (forall e,
      Auth.checkPasswordlessStatus_try r = Throw e ->
      step m (Reload true true (Return (Auth.checkPasswordlessStatus r))) =
      {| currentStep := 1;
         userProgress := loadProgress true (storage m);
         storage := storage m;
         timers := [] |}).
Proof.
  split.
  - intros token response l Htok Hf Hok Hj Hex.
    simpl. unfold Auth.checkPasswordlessStatus, Auth.checkPasswordlessStatus_try.
    rewrite Htok. simpl. rewrite Hf. simpl. rewrite Hok, Hj. simpl.
    assert (Hlen : (0 <? length (List.filter Auth.isPasswordless l))%nat = true).
    { apply Nat.ltb_lt. apply existsb_exists in Hex as (x & Hin & Hx).
      assert (Hin' : In x (List.filter Auth.isPasswordless l))
        by (apply List.filter_In; auto).
      destruct (List.filter Auth.isPasswordless l); [contradiction | simpl; lia]. }
    unfold_wizard. simpl. rewrite Hlen. reflexivity.
  - intros e He. simpl. unfold Auth.checkPasswordlessStatus. rewrite He.
    reflexivity.
Qed.

Lemma load_with_status_witness :
  currentStep
    (step boot
       (Reload true true
          (Return (Auth.checkPasswordlessStatus
                     (Scenario.listing [Scenario.password; Scenario.hello])))))
  = 4 /\
  currentStep
    (step boot
       (Reload true true
          (Return (Auth.checkPasswordlessStatus Scenario.outOfService))))
  = 1.
Proof.
  split.
  - rewrite (proj1 (load_with_status boot
                      (Scenario.listing [Scenario.password; Scenario.hello]))
               "token"
               (mkResponse true 200 "OK"
                  (Return (Auth.mkMethodsBody
                             (Some [Scenario.password; Scenario.hello]))))
               [Scenario.password; Scenario.hello]
               eq_refl eq_refl eq_refl eq_refl eq_refl).
    reflexivity.
  - rewrite (proj2 (load_with_status boot Scenario.outOfService)
               (Error "Error Graph API: 503") eq_refl).
    reflexivity.
Defined.

(** *** What the page shows *)

(** The buttons agree with the navigation: the back button is
    displayed exactly when [prevStep] moves the cursor back; exactly
    one of the next and complete buttons is displayed; and where the
    complete button stands in for the next button (on the last step),
    [nextStep] changes nothing. *)
Theorem buttons_match_navigation (m : Manager) :
  (prevBtn (updateNavigationButtons m) = true <->
   currentStep (prevStep m) = currentStep m - 1) /\
  (prevBtn (updateNavigationButtons m) = false -> prevStep m = m) /\
  nextBtn (updateNavigationButtons m)
    = negb (completeBtn (updateNavigationButtons m)) /\
  (completeBtn (updateNavigationButtons m) = true ->
   forall w, nextStep w m = m).
Proof.
  unfold updateNavigationButtons; simpl.
  split; [|split; [|split; [reflexivity|]]].
  - destruct (prevStep_cases m) as [[-> Hle]|[Hlt ->]]; simpl.
    + split; [|lia]. intros H. apply Z.ltb_lt in H. lia.
    + split; [reflexivity|]. intros _. now apply Z.ltb_lt.
  - intros H. apply Z.ltb_ge in H.
    destruct (prevStep_cases m) as [[-> _]|[Hlt _]]; [reflexivity | lia].
  - intros H w. apply Z.eqb_eq in H. unfold nextStep, nextStep_start.
    rewrite H. reflexivity.
Qed.

Lemma buttons_match_navigation_witness :
  prevBtn (updateNavigationButtons Scenario.verified) = false /\
  prevStep Scenario.verified = Scenario.verified.
Proof.
  split; [reflexivity|].
  apply (proj1 (proj2 (buttons_match_navigation Scenario.verified))).
  reflexivity.
Defined.

(** In every state the wizard reaches from the first visit without
    two calls of [nextStep] overlapping, the indicators of the steps
    before the cursor are green, the one of the cursor is blue and the
    later ones are gray; on the completion position all three are
    green. *)
Theorem indicators_follow_cursor (evs : list event) :
  forallb serial evs = true ->
  updateStepIndicators (run boot evs) =
  replicate (Z.to_nat (currentStep (run boot evs) - 1)) Green ++
  (if currentStep (run boot evs) <=? totalSteps then [Blue] else []) ++
  replicate (Z.to_nat (totalSteps - currentStep (run boot evs))) Gray.
Proof.
  intros Hs.
  pose proof (earned_run evs boot earned_boot Hs) as [_ Hc].
  unfold updateStepIndicators, indicator, totalSteps in *.
  assert (currentStep (run boot evs) = 1 \/ currentStep (run boot evs) = 2 \/
          currentStep (run boot evs) = 3 \/ currentStep (run boot evs) = 4)
    as [E|[E|[E|E]]] by lia; rewrite E; reflexivity.
Qed.

Lemma indicators_follow_cursor_witness :
  updateStepIndicators (run boot Scenario.orderly) = [Green; Green; Green] /\
  updateStepIndicators (run boot Scenario.hasty) = [Blue; Gray; Gray].
Proof.
  split.
  - rewrite (indicators_follow_cursor Scenario.orderly eq_refl). reflexivity.
  - rewrite (indicators_follow_cursor Scenario.hasty eq_refl). reflexivity.
Defined.

End WizardMore.

(* ===================================================================== *)
(** ** Further properties of the TAP manager *)
(* ===================================================================== *)

Section TapMore.
Import Tap TapPage.

Lemma generateTAP_inv (config : gmap string JsVal) (env : Env)
    (m m' : Manager) (tap : TAP) :
  generateTAP config env m = (Return tap, m') ->
  issue config env = Return tap /\
  m' = startTAPCountdown (countdownElement env) (now env) tap
         (addToHistory (writable env) tap (setCurrentTAP (Some tap) m)).
Proof.
  unfold generateTAP. destruct (issue config env) as [t|e];
    [|intros H; inversion H].
  destruct (displayGeneratedTAP env); intros H; inversion H; subst. auto.
Qed.

Lemma addToHistory_fields (w : bool) (tap : TAP) (m : Manager) :
  currentTAP (addToHistory w tap m) = currentTAP m /\
  currentCountdownInterval (addToHistory w tap m)
    = currentCountdownInterval m /\
  intervals (addToHistory w tap m) = intervals m /\
  nextHandle (addToHistory w tap m) = nextHandle m.
Proof.
  unfold addToHistory, saveHistory, setHistory.
  destruct (10 <=? length (tapHistory m))%nat, w; simpl; auto.
Qed.

Lemma addToHistory_saved (tap : TAP) (m : Manager) :
  storage (addToHistory true tap m) = Some (tapHistory (addToHistory true tap m)).
Proof.
  unfold addToHistory, saveHistory, setHistory.
  destruct (10 <=? length (tapHistory m))%nat; reflexivity.
Qed.

(** *** Failing to issue a pass *)

(** Without a session — no auth manager on the page, or one that is
    not authenticated — nothing depends on the graph and nothing
    changes: [generateTAP] throws "Usuario no autenticado",
    [deleteTAP] returns false, [getTAPMethods] returns an empty
    listing and the form's click does nothing. *)
Theorem no_session_no_effect (env : Env) (m : Manager)
    (config : gmap string JsVal) (tapId : string)
    (fetch : string -> Completion (Response TapList))
    (lifetime : option Z) (usableOnce : option string) :
  (authManager env = None \/
   exists am, authManager env = Some am /\ isAuthenticated am = false) ->
  generateTAP config env m = (Throw (Error "Usuario no autenticado"), m) /\
  deleteTAP tapId env m = (Return false, m) /\
  getTAPMethods (authManager env) fetch = {| value := [] |} /\
  onGenerateClick lifetime usableOnce env m = m.
Proof.
  unfold generateTAP, issue, deleteTAP, deleteTAP_try, getTAPMethods,
    getTAPMethods_try, onGenerateClick.
  intros [H|(am & H & Ha)]; rewrite H; [|rewrite Ha]; simpl; auto.
Qed.

Lemma no_session_no_effect_witness :
  generateTAP ∅
    (mkEnv None (post (Scenario.creating Scenario.longPass 0))
       (delete (Scenario.creating Scenario.longPass 0)) 0 true true
       (Return tt))
    Scenario.onePass
  = (Throw (Error "Usuario no autenticado"), Scenario.onePass).
Proof.
  apply (no_session_no_effect
           (mkEnv None (post (Scenario.creating Scenario.longPass 0))
              (delete (Scenario.creating Scenario.longPass 0)) 0 true true
              (Return tt))
           Scenario.onePass ∅ "tap-1"
           (fun _ => Throw (Error "offline")) None None).
  left. reflexivity.
Defined.

(** A refused creation whose body gives no usable message — no
    [error], no [error.message], an empty message, or a body of
    another shape — is reported with the status text of the response;
    and when the body of the refusal cannot be parsed, the error of
    the parser is what [generateTAP] throws. *)
Theorem generateTAP_error_message_fallback
    (config : gmap string JsVal) (env : Env) (m : Manager)
    (am : AuthManager) (token : string) (response : Response PostBody) :
  authManager env = Some am ->
  isAuthenticated am = true ->
  getAccessToken am = Return token ->
  post env token (requestBody config) = Return response ->
  ok response = false ->
  (forall b,
      json response = Return b ->
      errorMessage b = None \/ errorMessage b = Some "" ->
      generateTAP config env m =
      (Throw (Error ("Error Graph API: " +:+ statusText response)), m)) /\
  (forall e,
      json response = Throw e ->
      generateTAP config env m = (Throw e, m)).
Proof.
  intros Ham Hauth Htok Hpost Hok.
  unfold generateTAP, issue.
  rewrite Ham, Hauth, Htok. simpl. rewrite Hpost. simpl. rewrite Hok. simpl.
  split.
  - intros b Hj [Hb|Hb]; rewrite Hj; simpl; rewrite Hb; reflexivity.
  - intros e Hj. rewrite Hj. reflexivity.
Qed.

Lemma generateTAP_error_message_fallback_witness :
  generateTAP ∅ (Scenario.refusing "") Scenario.onePass =
  (Throw (Error "Error Graph API: Bad Request"), Scenario.onePass).
Proof.
  destruct (generateTAP_error_message_fallback ∅ (Scenario.refusing "")
              Scenario.onePass Scenario.user "token"
              (mkResponse false 400 "Bad Request"
                 (Return (ErrorShape
                            (mkErrorData (Some (mkDetail (Some "")))))))
              eq_refl eq_refl eq_refl eq_refl eq_refl) as [H _].
  apply (H (ErrorShape (mkErrorData (Some (mkDetail (Some ""))))) eq_refl).
  right. reflexivity.
Defined.

(** A pass that the graph has created but whose dates the page cannot
    handle — a creation time that [Date] does not parse, or an expiry
    beyond the range of [Date] — makes [generateTAP] throw, and the
    pass is neither shown nor recorded in the history. *)
Theorem generateTAP_invalid_date
    (config : gmap string JsVal) (env : Env) (m : Manager)
    (am : AuthManager) (token : string) (response : Response PostBody)
    (result : TapResult) :
  authManager env = Some am ->
  isAuthenticated am = true ->
  getAccessToken am = Return token ->
  post env token (requestBody config) = Return response ->
  ok response = true ->
  json response = Return (TapShape result) ->
  (result_createdDateTime result = None \/
   exists created,
     result_createdDateTime result = Some created /\
     maxTime < Z.abs (created + result_lifetimeInMinutes result * 60000)) ->
  exists e, generateTAP config env m = (Throw e, m).
Proof.
  intros Ham Hauth Htok Hpost Hok Hj Hd.
  unfold generateTAP, issue.
  rewrite Ham, Hauth, Htok. simpl. rewrite Hpost. simpl.
  rewrite Hok, Hj. simpl.
  destruct Hd as [Hd|(c & Hd & Hc)]; rewrite Hd; simpl.
  - eauto.
  - apply Z.leb_gt in Hc. rewrite Hc. simpl. eauto.
Qed.

Lemma generateTAP_invalid_date_witness :
  exists e,
    generateTAP ∅
      (Scenario.creating
         (mkResult "tap-3" "DDDD4444" None 60 false) 0)
      Scenario.onePass
    = (Throw e, Scenario.onePass).
Proof.
  apply (generateTAP_invalid_date ∅
           (Scenario.creating (mkResult "tap-3" "DDDD4444" None 60 false) 0)
           Scenario.onePass Scenario.user "token"
           (mkResponse true 201 "Created"
              (Return (TapShape (mkResult "tap-3" "DDDD4444" None 60 false))))
           (mkResult "tap-3" "DDDD4444" None 60 false));
    try reflexivity.
  left. reflexivity.
Defined.

(** *** Issuing a pass *)

Lemma startTAPCountdown_currentTAP (c : bool) (t : Z) (tap : TAP)
    (m : Manager) :
  currentTAP (startTAPCountdown c t tap m) =
  if c && expired (expiresDateTime tap) t then None else currentTAP m.
Proof.
  unfold startTAPCountdown, updateCountdown, hideTAPDisplay.
  destruct c; simpl; [|reflexivity].
  destruct (expired (expiresDateTime tap) t); simpl; reflexivity.
Qed.

(** After a successful [generateTAP] the returned pass is the last
    entry of the history, whose length has grown by one up to the cap
    of ten, and it is saved when localStorage accepts the write.  It
    is the current TAP unless it had already expired when its
    countdown was started, in which case there is no current TAP. *)
Theorem generateTAP_success_effects
    (config : gmap string JsVal) (env : Env) (m m' : Manager) (tap : TAP) :
  generateTAP config env m = (Return tap, m') ->
  last (tapHistory m') = Some tap /\
  length (tapHistory m') = Nat.min 10 (length (tapHistory m) + 1) /\
  (writable env = true -> storage m' = Some (tapHistory m')) /\
  currentTAP m' =
    (if countdownElement env && expired (expiresDateTime tap) (now env)
     then None else Some tap).
Proof.
  intros H. apply generateTAP_inv in H as [_ ->].
  destruct (startTAPCountdown_history (countdownElement env) (now env) tap
              (addToHistory (writable env) tap (setCurrentTAP (Some tap) m)))
    as [-> ->].
  rewrite startTAPCountdown_currentTAP.
  destruct (addToHistory_fields (writable env) tap
              (setCurrentTAP (Some tap) m)) as (-> & _).
  split; [|split; [|split; [|reflexivity]]].
  - rewrite addToHistory_history. apply last_snoc.
  - rewrite addToHistory_history.
    change (tapHistory (setCurrentTAP (Some tap) m)) with (tapHistory m).
    destruct (10 <=? length (tapHistory m))%nat eqn:E;
      rewrite length_app; cbn [length].
    + apply Nat.leb_le in E. rewrite slice_last_length. lia.
    + apply Nat.leb_gt in E. lia.
  - intros Hw. rewrite Hw. apply addToHistory_saved.
Qed.

Lemma generateTAP_success_effects_witness :
  exists tap m',
    generateTAP ∅ (Scenario.creating Scenario.shortPass 60000)
      Scenario.tenPasses = (Return tap, m') /\
    last (tapHistory m') = Some tap /\
    length (tapHistory m') = 10%nat /\
    currentTAP m' = None.
Proof.
  destruct (generateTAP ∅ (Scenario.creating Scenario.shortPass 60000)
              Scenario.tenPasses) as [[tap|e] m'] eqn:E.
  - exists tap, m'. split; [reflexivity|].
    destruct (generateTAP_success_effects _ _ _ _ _ E) as (Hl & Hn & _ & Hc).
    split; [exact Hl|]. split; [exact Hn|].
    rewrite Hc. vm_compute in E. inversion E. reflexivity.
  - vm_compute in E. discriminate E.
Defined.

(** When the display of the new pass throws, [generateTAP] throws
    that error although the pass has been issued: the pass is by then
    the current TAP and the last entry of the history (saved when
    localStorage accepts the write), and no countdown is started for
    it. *)
Theorem generateTAP_display_failure
    (config : gmap string JsVal) (env : Env) (m : Manager)
    (tap : TAP) (e : JsError) :
  issue config env = Return tap ->
  displayGeneratedTAP env = Throw e ->
  fst (generateTAP config env m) = Throw e /\
  currentTAP (snd (generateTAP config env m)) = Some tap /\
  last (tapHistory (snd (generateTAP config env m))) = Some tap /\
  (writable env = true ->
   storage (snd (generateTAP config env m))
   = Some (tapHistory (snd (generateTAP config env m)))) /\
  intervals (snd (generateTAP config env m)) = intervals m /\
  currentCountdownInterval (snd (generateTAP config env m))
  = currentCountdownInterval m.
Proof.
  intros Hi Hd. unfold generateTAP. rewrite Hi, Hd. simpl.
  destruct (addToHistory_fields (writable env) tap
              (setCurrentTAP (Some tap) m)) as (-> & -> & -> & _).
  split; [reflexivity|]. split; [reflexivity|].
  split; [rewrite addToHistory_history; apply last_snoc|].
  split; [|split; reflexivity].
  intros Hw. rewrite Hw. apply addToHistory_saved.
Qed.

Lemma generateTAP_display_failure_witness :
  fst (generateTAP ∅
         (mkEnv (Some Scenario.user)
            (post (Scenario.creating Scenario.longPass 30000))
            (delete (Scenario.creating Scenario.longPass 30000))
            30000 true true (Throw (Error "anime is not defined")))
         Scenario.onePass)
  = Throw (Error "anime is not defined") /\
  map id
    (tapHistory
       (snd (generateTAP ∅
               (mkEnv (Some Scenario.user)
                  (post (Scenario.creating Scenario.longPass 30000))
                  (delete (Scenario.creating Scenario.longPass 30000))
                  30000 true true (Throw (Error "anime is not defined")))
               Scenario.onePass)))
  = ["tap-1"; "tap-2"].
Proof.
  destruct (generateTAP_display_failure ∅
              (mkEnv (Some Scenario.user)
                 (post (Scenario.creating Scenario.longPass 30000))
                 (delete (Scenario.creating Scenario.longPass 30000))
                 30000 true true (Throw (Error "anime is not defined")))
              Scenario.onePass
              {| id := "tap-2"; temporaryAccessPass := "BBBB2222";
                 createdDateTime := Some 30000; lifetimeInMinutes := 60;
                 isUsableOnce := false; expiresDateTime := Some 3630000;
                 createdBy := "user@example.org" |}
              (Error "anime is not defined") eq_refl eq_refl) as (H & _).
  split; [exact H | reflexivity].
Defined.

(** *** Interval handles *)

Lemma hideTAPDisplay_handled (m : Manager) :
  handled m -> handled (hideTAPDisplay m).
Proof.
  intros (Hn & Hk & Hc). unfold hideTAPDisplay.
  destruct (currentCountdownInterval m) as [h|] eqn:E.
  - destruct (negb (h =? 0)); simpl.
    + split; [exact Hn|]. split; simpl; [|discriminate].
      intros k e Hl. apply lookup_delete_Some in Hl as [_ Hl]. eauto.
    + split; [exact Hn|]. split; [exact Hk|]. simpl.
      intros k Hk'. apply Hc. congruence.
  - split; [exact Hn|]. split; [exact Hk|]. simpl.
    intros k Hk'. congruence.
Qed.

Lemma updateCountdown_handled (e : option Z) (t : Z) (m : Manager) :
  handled m -> handled (updateCountdown e t m).
Proof.
  intros H. unfold updateCountdown. destruct (expired e t); [|exact H].
  apply hideTAPDisplay_handled, H.
Qed.

Lemma startTAPCountdown_handled (c : bool) (t : Z) (tap : TAP)
    (m : Manager) :
  handled m -> handled (startTAPCountdown c t tap m).
Proof.
  intros H. unfold startTAPCountdown. destruct c; simpl; [|exact H].
  destruct (updateCountdown_handled (expiresDateTime tap) t m H)
    as (Hn & Hk & _).
  split; simpl; [lia|]. split.
  - intros h e Hl. apply lookup_insert_Some in Hl as [[<- _]|[_ Hl]].
    + lia.
    + apply Hk in Hl. lia.
  - intros h Hh. inversion Hh; subst. rewrite lookup_insert_eq. eauto.
Qed.

Lemma handled_step (m : Manager) (ev : event) :
  handled m -> handled (step m ev).
Proof.
  intros H. destruct ev as [|config env|tapId env|h t]; simpl.
  - split; simpl; [lia|]. split; [|discriminate].
    intros h e Hl. rewrite lookup_empty in Hl. discriminate.
  - unfold generateTAP. destruct (issue config env) as [tap|e]; simpl;
      [|exact H].
    assert (Hadd : handled (addToHistory (writable env) tap
                              (setCurrentTAP (Some tap) m))).
    { destruct H as (Hn & Hk & Hc).
      destruct (addToHistory_fields (writable env) tap
                  (setCurrentTAP (Some tap) m)) as (_ & Ec & Ei & En).
      unfold handled. rewrite Ec, Ei, En. simpl. auto. }
    destruct (displayGeneratedTAP env); simpl; [|exact Hadd].
    apply startTAPCountdown_handled, Hadd.
  - unfold deleteTAP. destruct (deleteTAP_try tapId env m) as [m'|e] eqn:E;
      simpl; [|exact H].
    unfold deleteTAP_try in E.
    destruct (authManager env) as [am|]; [|discriminate].
    destruct (negb (isAuthenticated am)); [discriminate|].
    destruct (getAccessToken am) as [token|]; simpl in E; [|discriminate].
    destruct (delete env token tapId) as [response|]; simpl in E;
      [|discriminate].
    destruct (negb (ok response) && negb (status response =? 204));
      [discriminate|].
    inversion E; subst. unfold saveHistory, setHistory.
    destruct (writable env); exact H.
  - unfold tick. destruct (intervals m !! h); [|exact H].
    apply updateCountdown_handled, H.
Qed.

Lemma handled_run (evs : list event) (m : Manager) :
  handled m -> handled (run m evs).
Proof.
  revert m. induction evs as [|ev evs IH]; intros m Hm; simpl.
  - exact Hm.
  - apply IH, handled_step, Hm.
Qed.

Lemma handled_boot : handled boot.
Proof.
  split; simpl; [lia|]. split; [|discriminate].
  intros h e Hl. rewrite lookup_empty in Hl. discriminate.
Qed.

(** In every state the TAP page reaches from the first visit, the
    handle that the manager holds as its current countdown is not
    zero and belongs to a running interval: when [hideTAPDisplay]
    finds a handle it does cancel an interval. *)
Theorem current_countdown_is_running (evs : list event) (h : Z) :
  currentCountdownInterval (run boot evs) = Some h ->
  h <> 0 /\
  (exists e, intervals (run boot evs) !! h = Some e) /\
  intervals (hideTAPDisplay (run boot evs)) =
    base.delete h (intervals (run boot evs)).
Proof.
  intros Hc.
  destruct (handled_run evs boot handled_boot) as (_ & Hk & Hcur).
  destruct (Hcur h Hc) as [e He].
  assert (Hh : h <> 0) by (apply Hk in He; lia).
  split; [exact Hh|]. split; [eauto|].
  unfold hideTAPDisplay. rewrite Hc.
  apply Z.eqb_neq in Hh. rewrite Hh. reflexivity.
Qed.

Lemma current_countdown_is_running_witness :
  currentCountdownInterval
    (run boot [Generate ∅ (Scenario.creating Scenario.shortPass 0)]) = Some 1 /\
  intervals
    (hideTAPDisplay
       (run boot [Generate ∅ (Scenario.creating Scenario.shortPass 0)])) =
  base.delete 1
    (intervals
       (run boot [Generate ∅ (Scenario.creating Scenario.shortPass 0)])).
Proof.
  split; [reflexivity|].
  apply (current_countdown_is_running
           [Generate ∅ (Scenario.creating Scenario.shortPass 0)] 1).
  reflexivity.
Defined.

(** Generating a pass that has not expired never cancels an interval:
    in every state the TAP page reaches from the first visit, such a
    [generateTAP] (on a page with a countdown element) keeps all the
    running intervals, adds one under a fresh handle and makes it the
    current countdown, so that the intervals of the earlier passes
    keep firing. *)
Theorem generateTAP_adds_interval
    (evs : list event) (config : gmap string JsVal) (env : Env)
    (m' : Manager) (tap : TAP) :
  generateTAP config env (run boot evs) = (Return tap, m') ->
  countdownElement env = true ->
  expired (expiresDateTime tap) (now env) = false ->
  intervals (run boot evs) !! nextHandle (run boot evs) = None /\
  intervals m' =
    <[nextHandle (run boot evs) := expiresDateTime tap]>
      (intervals (run boot evs)) /\
  currentCountdownInterval m' = Some (nextHandle (run boot evs)) /\
  size (intervals m') = S (size (intervals (run boot evs))).
Proof.
  intros H Hc He. apply generateTAP_inv in H as [_ ->].
  destruct (handled_run evs boot handled_boot) as (_ & Hk & _).
  assert (Hfresh : intervals (run boot evs) !! nextHandle (run boot evs)
                   = None).
  { destruct (intervals (run boot evs) !! nextHandle (run boot evs))
      as [e|] eqn:E; [|reflexivity].
    apply Hk in E. lia. }
  destruct (addToHistory_fields (writable env) tap
              (setCurrentTAP (Some tap) (run boot evs)))
    as (_ & _ & Ei & En).
  unfold startTAPCountdown, updateCountdown. rewrite Hc, He. simpl.
  rewrite Ei, En. simpl.
  split; [exact Hfresh|]. split; [reflexivity|]. split; [reflexivity|].
  apply map_size_insert_None, Hfresh.
Qed.

Lemma generateTAP_adds_interval_witness :
  exists tap m',
    generateTAP ∅ (Scenario.creating Scenario.longPass 30000)
      (run boot [Generate ∅ (Scenario.creating Scenario.shortPass 0)])
    = (Return tap, m') /\
    size (intervals m') = 2%nat.
Proof.
  destruct (generateTAP ∅ (Scenario.creating Scenario.longPass 30000)
              (run boot [Generate ∅ (Scenario.creating Scenario.shortPass 0)]))
    as [[tap|e] m'] eqn:E.
  - exists tap, m'. split; [reflexivity|].
    assert (Ht : expired (expiresDateTime tap) 30000 = false)
      by (vm_compute in E; inversion E; reflexivity).
    destruct (generateTAP_adds_interval
                [Generate ∅ (Scenario.creating Scenario.shortPass 0)]
                _ _ _ _ E eq_refl Ht) as (_ & _ & _ & Hs).
    rewrite Hs. reflexivity.
  - vm_compute in E. discriminate E.
Defined.

(** *** Deleting *)

Lemma deleteTAP_cases (tapId : string) (env : Env) (m : Manager) :
  deleteTAP tapId env m = (Return false, m) \/
  deleteTAP tapId env m =
    (Return true,
     saveHistory (writable env)
       (setHistory
          (List.filter (fun tap => negb (String.eqb (id tap) tapId))
                       (tapHistory m)) m)).
Proof.
  unfold deleteTAP, deleteTAP_try.
  destruct (authManager env) as [am|]; [|now left].
  destruct (negb (isAuthenticated am)); [now left|].
  destruct (getAccessToken am) as [token|]; simpl; [|now left].
  destruct (delete env token tapId) as [response|]; simpl; [|now left].
  destruct (negb (ok response) && negb (status response =? 204));
    [now left | now right].
Qed.

(** [deleteTAP] never throws and its result is that of the remote
    call, whatever the id: it returns true exactly when there is a
    session, a token, and the graph answers the delete with a success
    status or 204; and when it returns false the manager is exactly
    as before, history and localStorage included. *)
Theorem deleteTAP_outcome (tapId : string) (env : Env) (m : Manager) :
  (exists b, fst (deleteTAP tapId env m) = Return b) /\
  (fst (deleteTAP tapId env m) = Return true <->
   exists am token response,
     authManager env = Some am /\
     isAuthenticated am = true /\
     getAccessToken am = Return token /\
     delete env token tapId = Return response /\
     (ok response = true \/ status response = 204)) /\
  (fst (deleteTAP tapId env m) = Return false ->
   snd (deleteTAP tapId env m) = m).
Proof.
  split; [|split].
  - destruct (deleteTAP_cases tapId env m) as [->| ->]; simpl; eauto.
  - unfold deleteTAP, deleteTAP_try.
    destruct (authManager env) as [am|] eqn:Ham; simpl.
    2: { split; [discriminate|]. intros (? & ? & ? & ? & _). discriminate. }
    destruct (isAuthenticated am) eqn:Hauth; simpl.
    2: { split; [discriminate|].
         intros (am' & ? & ? & E & Ha & _). congruence. }
    destruct (getAccessToken am) as [token|e] eqn:Htok; simpl.
    2: { split; [discriminate|].
         intros (am' & ? & ? & E & _ & Ht & _). congruence. }
    destruct (delete env token tapId) as [response|e] eqn:Hdel; simpl.
    2: { split; [discriminate|].
         intros (am' & t' & ? & E & _ & Ht & Hd & _).
         assert (am' = am) by congruence; subst am'.
         assert (t' = token) by congruence; subst t'. congruence. }
    destruct (negb (ok response) && negb (status response =? 204)) eqn:Hst;
      simpl.
    + split; [discriminate|].
      intros (am' & t' & r' & E & _ & Ht & Hd & Hok).
      assert (am' = am) by congruence; subst am'.
      assert (t' = token) by congruence; subst t'.
      assert (r' = response) by congruence; subst r'.
      apply andb_true_iff in Hst as [H1 H2].
      apply negb_true_iff in H1, H2. apply Z.eqb_neq in H2.
      destruct Hok; congruence.
    + split; [|reflexivity].
      intros _. exists am, token, response.
      split; [reflexivity|]. repeat (split; [assumption|]).
      apply andb_false_iff in Hst as [H|H]; apply negb_false_iff in H.
      * now left.
      * right. now apply Z.eqb_eq.
  - destruct (deleteTAP_cases tapId env m) as [->| ->]; simpl;
      [reflexivity | discriminate].
Qed.

Lemma deleteTAP_outcome_witness :
  snd (deleteTAP "tap-1" (Scenario.refusing "gone") Scenario.twoPasses)
  = Scenario.twoPasses.
Proof.
  apply (proj2 (proj2 (deleteTAP_outcome "tap-1" (Scenario.refusing "gone")
                         Scenario.twoPasses))).
  reflexivity.
Defined.

(** When [deleteTAP] returns true, the history has lost exactly the
    entries with that id, the others keeping their order, and no card
    of the list carries the id any more; the history is saved when
    localStorage accepts the write.  The current TAP and the
    countdown are not touched, even when the deleted pass is the one
    on display: it can still be copied. *)
Theorem deleteTAP_removes_id (tapId : string) (env : Env) (m m' : Manager) :
  deleteTAP tapId env m = (Return true, m') ->
  tapHistory m' =
    List.filter (fun tap => negb (String.eqb (id tap) tapId)) (tapHistory m) /\
  (forall tap, In tap (tapHistory m') <->
               In tap (tapHistory m) /\ id tap <> tapId) /\
  (forall t cards, refreshTAPList t m' = Some cards ->
                   ~ In tapId (map card_id cards)) /\
  (writable env = true -> storage m' = Some (tapHistory m')) /\
  currentTAP m' = currentTAP m /\
  intervals m' = intervals m /\
  currentCountdownInterval m' = currentCountdownInterval m /\
  (forall c, copyTAPToClipboard c m' = copyTAPToClipboard c m).
Proof.
  intros H.
  destruct (deleteTAP_cases tapId env m) as [E|E]; rewrite E in H;
    inversion H; subst; clear H E.
  set (keep := fun tap => negb (String.eqb (id tap) tapId)).
  assert (Hh : tapHistory (saveHistory (writable env)
                             (setHistory (List.filter keep (tapHistory m)) m))
               = List.filter keep (tapHistory m))
    by (unfold saveHistory, setHistory; destruct (writable env); reflexivity).
  assert (Hin : forall tap, In tap (List.filter keep (tapHistory m)) <->
                            In tap (tapHistory m) /\ id tap <> tapId).
  { intros tap. rewrite List.filter_In. unfold keep.
    rewrite negb_true_iff, String.eqb_neq. reflexivity. }
  split; [exact Hh|]. split; [rewrite Hh; exact Hin|].
  split; [|split; [|unfold copyTAPToClipboard, saveHistory, setHistory;
                    destruct (writable env); simpl; auto]].
  - intros t cards Hcards Hid. unfold refreshTAPList in Hcards.
    rewrite Hh in Hcards.
    destruct (List.filter keep (tapHistory m)) as [|x l] eqn:El;
      [discriminate|].
    inversion Hcards; subst cards; clear Hcards.
    simpl in Hid. rewrite List.map_map in Hid. simpl in Hid.
    change (In tapId (map id (x :: l))) in Hid.
    apply List.in_map_iff in Hid as (tap & Heq & Htap).
    apply Hin in Htap as [_ Hne]. contradiction.
  - intros Hw. unfold saveHistory, setHistory. rewrite Hw. reflexivity.
Qed.

Lemma deleteTAP_removes_id_witness :
  exists m',
    deleteTAP "tap-2" (Scenario.creating Scenario.longPass 40000)
      Scenario.twoPasses = (Return true, m') /\
    map id (tapHistory m') = ["tap-1"] /\
    option_map id (currentTAP m') = Some "tap-2".
Proof.
  destruct (deleteTAP "tap-2" (Scenario.creating Scenario.longPass 40000)
              Scenario.twoPasses) as [[[|]|e] m'] eqn:E.
  - exists m'. split; [reflexivity|].
    destruct (deleteTAP_removes_id _ _ _ _ E) as (Hh & _ & _ & _ & Hc & _).
    rewrite Hh, Hc. split; reflexivity.
  - vm_compute in E. discriminate E.
  - vm_compute in E. discriminate E.
Defined.

(** *** Reloading the TAP page *)

Lemma mirrored_step (m : Manager) (ev : event) :
  mirrored m -> saves ev = true -> mirrored (step m ev).
Proof.
  unfold mirrored. intros Hm Hev.
  destruct ev as [|config env|tapId env|h t]; simpl in *.
  - destruct (storage m); reflexivity.
  - unfold generateTAP. destruct (issue config env) as [tap|e]; simpl;
      [|exact Hm].
    destruct (displayGeneratedTAP env); simpl.
    + destruct (startTAPCountdown_history (countdownElement env) (now env)
                  tap (addToHistory (writable env) tap
                         (setCurrentTAP (Some tap) m))) as [-> ->].
      rewrite Hev, addToHistory_saved. reflexivity.
    + rewrite Hev, addToHistory_saved. reflexivity.
  - destruct (deleteTAP_cases tapId env m) as [->| ->]; simpl; [exact Hm|].
    rewrite Hev. reflexivity.
  - destruct (tick_history h t m) as [-> ->]. exact Hm.
Qed.

Lemma mirrored_run (evs : list event) (m : Manager) :
  mirrored m -> forallb saves evs = true -> mirrored (run m evs).
Proof.
  revert m. induction evs as [|ev evs IH]; intros m Hm Hevs; simpl in *.
  - exact Hm.
  - apply andb_true_iff in Hevs as [Hev Hrest].
    apply IH; [apply mirrored_step; assumption | exact Hrest].
Qed.

(** As long as localStorage accepts the writes, a reload of the TAP
    page gives back the history as it was; the current TAP and the
    running countdowns do not survive it. *)
Theorem reload_restores_history (evs : list event) :
  forallb saves evs = true ->
  tapHistory (step (run boot evs) Reload) = tapHistory (run boot evs) /\
  currentTAP (step (run boot evs) Reload) = None /\
  currentCountdownInterval (step (run boot evs) Reload) = None /\
  intervals (step (run boot evs) Reload) = ∅.
Proof.
  intros Hevs.
  assert (Hm : mirrored (run boot evs))
    by (apply mirrored_run; [reflexivity | exact Hevs]).
  unfold mirrored in Hm. simpl. rewrite Hm. auto.
Qed.

Lemma reload_restores_history_witness :
  map id
    (tapHistory
       (step (run boot [Generate ∅ (Scenario.creating Scenario.shortPass 0);
                        Generate ∅ (Scenario.creating Scenario.longPass 30000)])
          Reload)) = ["tap-1"; "tap-2"].
Proof.
  rewrite (proj1 (reload_restores_history
                    [Generate ∅ (Scenario.creating Scenario.shortPass 0);
                     Generate ∅ (Scenario.creating Scenario.longPass 30000)]
                    eq_refl)).
  reflexivity.
Defined.

(** *** Copying, listing and the form *)

(** What the copy button hands to the clipboard is the code of the
    pass that [generateTAP] has just returned (when that pass has a
    code and had not expired on arrival); and once an interval has
    computed a remaining time of zero or below, there is nothing to
    copy any more. *)
Theorem copy_follows_current
    (config : gmap string JsVal) (env : Env) (m m' : Manager) (tap : TAP) :
  (generateTAP config env m = (Return tap, m') ->
   temporaryAccessPass tap <> "" ->
   countdownElement env && expired (expiresDateTime tap) (now env) = false ->
   copyTAPToClipboard true m' =
   (Some (temporaryAccessPass tap),
    TAPSuccess "TAP copiado al portapapeles")) /\
  (forall h t e c,
      intervals m !! h = Some e ->
      expired e t = true ->
      copyTAPToClipboard c (tick h t m) =
      (None, TAPError "No hay TAP para copiar")).
Proof.
  split.
  - intros H Hcode Hlive.
    destruct (generateTAP_success_effects _ _ _ _ _ H) as (_ & _ & _ & Hc).
    unfold copyTAPToClipboard. rewrite Hc, Hlive.
    apply String.eqb_neq in Hcode. rewrite Hcode. reflexivity.
  - intros h t e c Hi He.
    unfold tick, updateCountdown. rewrite Hi, He. reflexivity.
Qed.

Lemma copy_follows_current_witness :
  (exists tap m',
      generateTAP ∅ (Scenario.creating Scenario.shortPass 0) boot
      = (Return tap, m') /\
      fst (copyTAPToClipboard true m') = Some "AAAA1111") /\
  fst (copyTAPToClipboard true (tick 1 60000 Scenario.onePass)) = None.
Proof.
  split.
  - destruct (generateTAP ∅ (Scenario.creating Scenario.shortPass 0) boot)
      as [[tap|e] m'] eqn:E; [|vm_compute in E; discriminate E].
    exists tap, m'. split; [reflexivity|].
    assert (Ht : tap = {| id := "tap-1"; temporaryAccessPass := "AAAA1111";
                          createdDateTime := Some 0; lifetimeInMinutes := 1;
                          isUsableOnce := true;
                          expiresDateTime := Some 60000;
                          createdBy := "user@example.org" |})
      by (pose proof E as E0; vm_compute in E0; inversion E0; reflexivity).
    rewrite (proj1 (copy_follows_current _ _ _ _ _) E).
    + rewrite Ht. reflexivity.
    + rewrite Ht. discriminate.
    + rewrite Ht. reflexivity.
  - rewrite (proj2 (copy_follows_current ∅
                      (Scenario.creating Scenario.shortPass 0)
                      Scenario.onePass boot (Scenario.pass 1))
               1 60000 (Some 60000) true eq_refl eq_refl).
    reflexivity.
Defined.

(** The list and the countdown do not draw the line at the same
    instant: a pass that the list labels as expired is expired for
    the countdown, but at the very millisecond of its expiry the
    countdown already hides the pass while the list still labels it
    as active. *)
Theorem list_and_countdown_expiry (t : Z) (tap : TAP) :
  (isExpired t tap = true -> expired (expiresDateTime tap) t = true) /\
  (expired (expiresDateTime tap) t = true /\ isExpired t tap = false <->
   expiresDateTime tap = Some t).
Proof.
  unfold isExpired, expired. destruct (expiresDateTime tap) as [e|].
  - split.
    + intros H. apply Z.ltb_lt in H. apply Z.leb_le. lia.
    + split.
      * intros [H1 H2]. apply Z.leb_le in H1. apply Z.ltb_ge in H2.
        f_equal. lia.
      * intros H. inversion H; subst. split.
        -- apply Z.leb_le. lia.
        -- apply Z.ltb_ge. lia.
  - split; [discriminate|]. split; [intros [H _]|intros H]; discriminate.
Qed.

Lemma list_and_countdown_expiry_witness :
  expired (expiresDateTime (Scenario.pass 1)) 3601000 = true /\
  isExpired 3601000 (Scenario.pass 1) = false.
Proof.
  apply (proj2 (proj2 (list_and_countdown_expiry 3601000 (Scenario.pass 1)))).
  reflexivity.
Defined.

(** The click of the form, with a session and a token, makes the
    creation call with the body [sent], whose lifetime is a number
    other than zero and whose single-use flag is a boolean: a lifetime
    field that does not parse, or that parses to 0, is sent as 60, any
    other number as it is, and the pass is single-use exactly when the
    checkbox field has the value "on".  The pass that the graph
    creates in answer to that request ends up last in the history, and
    what the click does depends on the graph only through its answer
    to that request. *)
Theorem form_request (lifetime : option Z) (usableOnce : option string)
    (env : Env) (m : Manager) (am : AuthManager) (token : string) :
  authManager env = Some am ->
  isAuthenticated am = true ->
  getAccessToken am = Return token ->
  let minutes :=
    match lifetime with
    | Some n => if n =? 0 then 60 else n
    | None => 60
    end in
  let sent :=
    {| request_odata_type :=
         "#microsoft.graph.temporaryAccessPassAuthenticationMethod";
       request_lifetimeInMinutes := JNum minutes;
       request_isUsableOnce :=
         JBool (match usableOnce with
                | Some v => String.eqb v "on"
                | None => false
                end) |} in
  minutes <> 0 /\
  (forall response result created,
      post env token sent = Return response ->
      ok response = true ->
      json response = Return (TapShape result) ->
      result_createdDateTime result = Some created ->
      Z.abs (created + result_lifetimeInMinutes result * 60000) <= maxTime ->
      option_map id (last (tapHistory (onGenerateClick lifetime usableOnce
                                         env m)))
      = Some (result_id result)) /\
  (forall post',
      post' token sent = post env token sent ->
      onGenerateClick lifetime usableOnce
        (mkEnv (authManager env) post' (delete env) (now env)
           (writable env) (countdownElement env) (displayGeneratedTAP env))
        m
      = onGenerateClick lifetime usableOnce env m).
Proof.
  intros Ham Hauth Htok minutes sent.
  assert (Hsent : requestBody (formConfig lifetime usableOnce) = sent).
  { rewrite requestBody_sent. unfold sent, minutes, formConfig.
    rewrite lookup_insert_eq.
    rewrite lookup_insert_ne by discriminate. rewrite lookup_insert_eq.
    f_equal. destruct lifetime as [n|]; [|reflexivity].
    unfold or; simpl. destruct (n =? 0); reflexivity. }
  split; [|split].
  - unfold minutes. destruct lifetime as [n|]; [|discriminate].
    destruct (n =? 0) eqn:E; [discriminate|]. now apply Z.eqb_neq.
  - intros response result created Hpost Hok Hj Hc Hrange.
    unfold onGenerateClick. rewrite Ham, Hauth. simpl.
    assert (Hi : exists tap,
               issue (formConfig lifetime usableOnce) env = Return tap /\
               id tap = result_id result).
    { unfold issue. rewrite Ham, Hauth, Htok. simpl.
      rewrite Hsent, Hpost. simpl. rewrite Hok, Hj. simpl.
      unfold makeTapData. rewrite Hc. simpl.
      apply Z.leb_le in Hrange. rewrite Hrange. simpl. eauto. }
    destruct Hi as (tap & Hi & Hid).
    unfold generateTAP. rewrite Hi.
    destruct (displayGeneratedTAP env); simpl.
    + destruct (startTAPCountdown_history (countdownElement env) (now env)
                  tap (addToHistory (writable env) tap
                         (setCurrentTAP (Some tap) m))) as [-> _].
      rewrite addToHistory_history, last_snoc. simpl. now f_equal.
    + rewrite addToHistory_history, last_snoc. simpl. now f_equal.
  - intros post' Hpost. unfold onGenerateClick. simpl.
    rewrite Ham, Hauth. simpl. unfold generateTAP, issue. simpl.
    rewrite Ham, Hauth, Htok. simpl. rewrite Hsent, Hpost. reflexivity.
Qed.

Lemma form_request_witness :
  option_map id
    (last (tapHistory
             (onGenerateClick (Some 0) None
                (Scenario.creating Scenario.longPass 30000)
                Scenario.onePass)))
  = Some "tap-2".
Proof.
  destruct (form_request (Some 0) None
              (Scenario.creating Scenario.longPass 30000) Scenario.onePass
              Scenario.user "token" eq_refl eq_refl eq_refl) as (_ & H & _).
  apply (H (mkResponse true 201 "Created"
              (Return (TapShape Scenario.longPass)))
           Scenario.longPass 30000); try reflexivity.
  vm_compute. discriminate.
Defined.

(** [getTAPMethods] never throws: whatever fails on the way — the
    token, the request, a non-success status, the parsing of the body
    — it returns an empty listing; and when nothing fails it returns
    the body as the graph sent it. *)
Theorem getTAPMethods_fails_open (am : AuthManager)
    (fetch : string -> Completion (Response TapList)) :
  isAuthenticated am = true ->
  ((exists e, getAccessToken am = Throw e) \/
   (exists token, getAccessToken am = Return token /\
      ((exists e, fetch token = Throw e) \/
       (exists response, fetch token = Return response /\
          (ok response = false \/ exists e, json response = Throw e)))) ->
   getTAPMethods (Some am) fetch = {| value := [] |}) /\
  (forall token response methods,
      getAccessToken am = Return token ->
      fetch token = Return response ->
      ok response = true ->
      json response = Return methods ->
      getTAPMethods (Some am) fetch = methods).
Proof.
  intros Ha. unfold getTAPMethods, getTAPMethods_try. rewrite Ha. simpl.
  split.
  - intros [[e He]|(token & Htok & [[e He]|(response & Hf & Hr)])].
    + rewrite He. reflexivity.
    + rewrite Htok. simpl. rewrite He. reflexivity.
    + rewrite Htok. simpl. rewrite Hf. simpl.
      destruct (ok response) eqn:Hok; simpl; [|reflexivity].
      destruct Hr as [Hr|[e He]]; [discriminate|]. rewrite He. reflexivity.
  - intros token response methods Htok Hf Hok Hj.
    rewrite Htok. simpl. rewrite Hf. simpl. rewrite Hok, Hj. reflexivity.
Qed.

Lemma getTAPMethods_fails_open_witness :
  getTAPMethods (Some Scenario.user)
    (fun _ => Return (mkResponse false 500 "Internal Server Error"
                        (Return (mkTapList [Scenario.shortPass]))))
  = {| value := [] |}.
Proof.
  apply (proj1 (getTAPMethods_fails_open Scenario.user
                  (fun _ => Return (mkResponse false 500
                                      "Internal Server Error"
                                      (Return (mkTapList [Scenario.shortPass]))))
                  eq_refl)).
  right. exists "token". split; [reflexivity|].
  right. eexists. split; [reflexivity|]. left. reflexivity.
Defined.

End TapMore.

(* ===================================================================== *)
(** ** Properties of the session *)
(* ===================================================================== *)

Section SessionFacts.
Import Session.

Lemma init_signed (c i : bool) (accs : list Account) (a : AuthManager) :
  signed a -> signed (init c i accs a).
Proof.
  intros (Ha & Hr & Hm). unfold signed, init.
  destruct (msal a) eqn:El, c, i; simpl; try destruct accs; simpl;
    rewrite ?El; intuition (eauto; congruence).
Qed.

Lemma signed_step (a : AuthManager) (ev : event) :
  signed a -> signed (step a ev).
Proof.
  intros H. destruct ev as [c i accs|resp|c i accs|]; simpl.
  - apply init_signed, H.
  - destruct (redirectPromise a) eqn:E; [|exact H].
    destruct H as (Ha & Hr & Hm).
    unfold signed, handleRedirect.
    destruct resp as [account|]; simpl;
      intuition (eauto; try discriminate).
  - unfold login. destruct (msalInstance a); [exact H|].
    apply init_signed, H.
  - exact H.
Qed.

Lemma signed_run (evs : list event) (a : AuthManager) :
  signed a -> signed (run a evs).
Proof.
  revert a. induction evs as [|ev evs IH]; intros a Ha; simpl.
  - exact Ha.
  - apply IH, signed_step, Ha.
Qed.

Lemma signed_constructed (loaded : bool) : signed (constructed loaded).
Proof. repeat split; simpl; discriminate. Qed.

(** Once the auth manager reports an authenticated session — after
    any sequence of initialisations, redirect responses, logins and
    logouts, on a page with or without the library — it has a client
    and a current user, so [getAccessToken] never refuses for lack of
    a session: it returns the token of the silent acquisition, falls
    back on the redirect acquisition (once) when interaction is
    required, and throws any other error of the silent acquisition as
    it is. *)
Theorem authenticated_has_session (loaded : bool) (evs : list event)
    (acquireTokenSilent : silent)
    (acquireTokenRedirect : Completion string) :
  isAuthenticated (run (constructed loaded) evs) = true ->
  (exists account,
      currentUser (run (constructed loaded) evs) = Some account) /\
  getAccessToken (run (constructed loaded) evs) acquireTokenSilent
    acquireTokenRedirect =
  match acquireTokenSilent with
  | Token t => Return t
  | InteractionRequired _ => acquireTokenRedirect
  | Failed e => Throw e
  end.
Proof.
  intros H.
  destruct (signed_run evs (constructed loaded) (signed_constructed loaded))
    as (Ha & _ & Hl).
  destruct (Ha H) as [Hm [u Hu]].
  split; [eauto|].
  unfold getAccessToken, getAccessToken_catch.
  rewrite Hm, Hu, (Hl Hm). simpl. destruct acquireTokenSilent; reflexivity.
Qed.

Lemma authenticated_has_session_witness :
  getAccessToken
    (run (constructed true)
       [Init true true [mkAccount "Ada" "ada@example.org"]; Logout])
    (InteractionRequired (Error "interaction_required"))
    (Return "token-2")
  = Return "token-2".
Proof.
  apply (authenticated_has_session true
           [Init true true [mkAccount "Ada" "ada@example.org"]; Logout]
           (InteractionRequired (Error "interaction_required"))
           (Return "token-2")).
  reflexivity.
Defined.

(** As long as the client cannot be created — the library is missing
    from the page, or every construction of the client fails — the
    manager stays as the constructor left it, whatever is tried: it is
    not authenticated, and [getAccessToken] throws without looking at
    what the token acquisitions would answer: "No hay sesión activa"
    on a page with the library, and the ReferenceError of its [catch]
    on a page without. *)
Theorem no_client_no_session (loaded : bool) (evs : list event)
    (acquireTokenSilent : silent)
    (acquireTokenRedirect : Completion string) :
  loaded = false \/ forallb clientless evs = true ->
  run (constructed loaded) evs = constructed loaded /\
  isAuthenticated (run (constructed loaded) evs) = false /\
  getAccessToken (run (constructed loaded) evs) acquireTokenSilent
    acquireTokenRedirect
  = Throw (if loaded then Error "No hay sesión activa" else msalUndefined).
Proof.
  intros Hevs.
  assert (E : run (constructed loaded) evs = constructed loaded).
  { induction evs as [|ev evs IH]; [reflexivity|].
    assert (Es : step (constructed loaded) ev = constructed loaded).
    { destruct Hevs as [->|Hevs].
      - destruct ev as [c i accs|resp|c i accs|]; reflexivity.
      - simpl in Hevs. apply andb_true_iff in Hevs as [Hev _].
        destruct ev as [c i accs|resp|c i accs|]; simpl in *;
          try reflexivity; apply negb_true_iff in Hev; subst c;
          unfold login, init; simpl; rewrite andb_false_r; reflexivity. }
    simpl. rewrite Es. apply IH.
    destruct Hevs as [->|Hevs]; [now left|].
    right. simpl in Hevs. apply andb_true_iff in Hevs as [_ Hrest].
    exact Hrest. }
  rewrite E. split; [reflexivity|]. split; [reflexivity|].
  unfold getAccessToken, getAccessToken_catch. simpl.
  destruct loaded; reflexivity.
Qed.

Lemma no_client_no_session_witness :
  getAccessToken
    (run (constructed false)
       [Init true true [mkAccount "Ada" "ada@example.org"];
        Login true true [mkAccount "Ada" "ada@example.org"]])
    (Token "token-1") (Return "token-2")
  = Throw msalUndefined /\
  getAccessToken
    (run (constructed true)
       [Init false true [mkAccount "Ada" "ada@example.org"];
        Redirected (Some (mkAccount "Ada" "ada@example.org"));
        Login false true []])
    (Token "token-1") (Return "token-2")
  = Throw (Error "No hay sesión activa").
Proof.
  split.
  - apply (no_client_no_session false
             [Init true true [mkAccount "Ada" "ada@example.org"];
              Login true true [mkAccount "Ada" "ada@example.org"]]
             (Token "token-1") (Return "token-2")).
    left. reflexivity.
  - apply (no_client_no_session true
             [Init false true [mkAccount "Ada" "ada@example.org"];
              Redirected (Some (mkAccount "Ada" "ada@example.org"));
              Login false true []]
             (Token "token-1") (Return "token-2")).
    right. reflexivity.
Defined.

End SessionFacts.

(* ===================================================================== *)
(** ** The status record and the history of a run *)
(* ===================================================================== *)

Section Consistency.

(** Whatever the graph answers, the record that
    [checkPasswordlessStatus] returns is consistent:
    [hasPasswordless] holds exactly when [methods] is not empty,
    [methods] holds exactly the passwordless entries of [allMethods],
    in their order, and an [error] text comes with empty lists. *)
Theorem status_consistent (r : Auth.Remote Auth.MethodsBody) :
  (Auth.hasPasswordless (Auth.checkPasswordlessStatus r) = true <->
   Auth.methods (Auth.checkPasswordlessStatus r) <> []) /\
  Auth.methods (Auth.checkPasswordlessStatus r) =
    List.filter Auth.isPasswordless
      (Auth.allMethods (Auth.checkPasswordlessStatus r)) /\
  (Auth.error (Auth.checkPasswordlessStatus r) <> None ->
   Auth.hasPasswordless (Auth.checkPasswordlessStatus r) = false /\
   Auth.allMethods (Auth.checkPasswordlessStatus r) = []).
Proof.
  unfold Auth.checkPasswordlessStatus, Auth.checkPasswordlessStatus_try.
  destruct (Auth.getAccessToken r) as [token|e]; simpl;
    [|repeat split; try discriminate; congruence].
  destruct (Auth.fetch r token) as [response|e]; simpl;
    [|repeat split; try discriminate; congruence].
  destruct (negb (ok response)); simpl;
    [repeat split; try discriminate; congruence|].
  destruct (json response) as [body|e]; simpl;
    [|repeat split; try discriminate; congruence].
  destruct (Auth.value body) as [l|]; simpl;
    [|repeat split; try discriminate; congruence].
  split; [|split; [reflexivity | intros H; now destruct H]].
  destruct (List.filter Auth.isPasswordless l); simpl; split;
    try discriminate; try congruence; reflexivity.
Qed.

Lemma status_consistent_witness :
  Auth.hasPasswordless (Auth.checkPasswordlessStatus Scenario.outOfService)
    = false /\
  Auth.allMethods (Auth.checkPasswordlessStatus Scenario.outOfService) = [].
Proof.
  apply (proj2 (proj2 (status_consistent Scenario.outOfService))).
  discriminate.
Defined.

Import Tap TapPage.

Lemma slice_last_all {A} (k : nat) (l : list A) :
  (length l <= k)%nat -> slice_last k l = l.
Proof.
  intros H. unfold slice_last.
  replace (length l - k)%nat with 0%nat by lia. reflexivity.
Qed.

Lemma slice_last_app {A} (k : nat) (l r : list A) :
  slice_last k (slice_last k l ++ r) = slice_last k (l ++ r).
Proof.
  unfold slice_last.
  rewrite !length_app, length_skipn.
  rewrite (List.skipn_app (length l + length r - k) l r).
  rewrite (List.skipn_app _ (skipn (length l - k) l) r).
  rewrite List.skipn_skipn, length_skipn.
  f_equal; f_equal; lia.
Qed.

Lemma slice_last_push {A} (x : A) (l : list A) :
  (if (10 <=? length l)%nat then slice_last 9 l else l) ++ [x] =
  slice_last 10 (l ++ [x]).
Proof.
  destruct (10 <=? length l)%nat eqn:E.
  - apply Nat.leb_le in E. unfold slice_last.
    rewrite length_app. simpl length.
    rewrite (List.skipn_app (length l + 1 - 10) l [x]).
    replace (length l + 1 - 10)%nat with (length l - 9)%nat by lia.
    replace (length l - 9 - length l)%nat with 0%nat by lia. reflexivity.
  - apply Nat.leb_gt in E. symmetry. apply slice_last_all.
    rewrite length_app. simpl. lia.
Qed.

Lemma issuing_step (m : Manager) (ev : event) :
  issuing ev = true ->
  tapHistory (step m ev) = slice_last 10 (tapHistory m ++ issued [ev]) \/
  (issued [ev] = [] /\ tapHistory (step m ev) = tapHistory m).
Proof.
  intros Hev. destruct ev as [|config env|tapId env|h t];
    try discriminate; simpl.
  - unfold generateTAP. destruct (issue config env) as [tap|e]; simpl.
    + left. destruct (displayGeneratedTAP env); simpl.
      * destruct (startTAPCountdown_history (countdownElement env)
                    (now env) tap
                    (addToHistory (writable env) tap
                       (setCurrentTAP (Some tap) m))) as [-> _].
        rewrite addToHistory_history. apply slice_last_push.
      * rewrite addToHistory_history. apply slice_last_push.
    + right. auto.
  - right. split; [reflexivity|]. apply tick_history.
Qed.

(** Over any run of generations and ticks, the history is the ten
    most recent passes that [generateTAP] built from the answers of
    the graph, oldest first (all of them while there are fewer than
    ten), those included whose display failed, so that [generateTAP]
    threw instead of returning them. *)
Theorem history_is_last_ten (evs : list event) :
  forallb issuing evs = true ->
  tapHistory (run boot evs) = slice_last 10 (issued evs).
Proof.
  intros Hevs.
  enough (G : forall m,
             (length (tapHistory m) <= 10)%nat ->
             tapHistory (run m evs)
             = slice_last 10 (tapHistory m ++ issued evs))
    by (apply (G boot); simpl; lia).
  induction evs as [|ev evs IH]; intros m Hm.
  - simpl. unfold issued. simpl. rewrite app_nil_r.
    symmetry. apply slice_last_all, Hm.
  - simpl in Hevs. apply andb_true_iff in Hevs as [Hev Hrest].
    change (run m (ev :: evs)) with (run (step m ev) evs).
    assert (Ei : issued (ev :: evs) = issued [ev] ++ issued evs)
      by (unfold issued; simpl; rewrite app_nil_r; reflexivity).
    rewrite Ei.
    destruct (issuing_step m ev Hev) as [E|[E1 E2]].
    + rewrite (IH Hrest (step m ev)).
      * rewrite E, slice_last_app, <- app_assoc. reflexivity.
      * rewrite E, slice_last_length. lia.
    + rewrite (IH Hrest (step m ev)) by (rewrite E2; exact Hm).
      rewrite E1, E2. reflexivity.
Qed.

Lemma history_is_last_ten_witness :
  map id
    (tapHistory
       (run boot [Generate ∅ (Scenario.creating Scenario.shortPass 0);
                  Tick 1 1000;
                  Generate ∅ (Scenario.refusing "quota exceeded");
                  Generate ∅ (Scenario.creating Scenario.longPass 30000)]))
  = ["tap-1"; "tap-2"].
Proof.
  rewrite (history_is_last_ten
             [Generate ∅ (Scenario.creating Scenario.shortPass 0);
              Tick 1 1000;
              Generate ∅ (Scenario.refusing "quota exceeded");
              Generate ∅ (Scenario.creating Scenario.longPass 30000)]
             eq_refl).
  reflexivity.
Defined.

End Consistency.
